(** * Forex scalper strategies: a shallow embedding of [strategies.py]

    The decision routines of [src/strategies.py] are transcribed as Rocq
    functions.  Python floats (and the [numpy.float64] scalars pandas hands
    out) are IEEE 754 binary64 numbers, modelled by Rocq's primitive floats;
    Python integers are [Z]; [None] is [option]'s [None]; an exception that
    leaves [decide] is an explicit outcome.  The one mutable field of a
    [SafeStrategy] instance, [trailing_activated], is threaded through
    [decide] as explicit state. *)

From Stdlib Require Import ZArith List String Ascii Bool Lia.
From Stdlib Require Import Floats.
From Stdlib Require Import DecimalString.
Import ListNotations.

#[local] Set Warnings "-inexact-float".

Local Open Scope string_scope.
Local Open Scope Z_scope.

(** ** Python values *)

(** The exceptions that can leave the modelled code. *)
Inductive Exn : Type :=
| IndexError
| KeyError
| ValueError
| TypeError.

(** [seq.iloc[i]] / [seq[i]] with Python's negative indexing: index [i < 0]
    counts from the end, and an index outside [-len, len) raises
    [IndexError] (here: [None]). *)
Definition iloc {A : Type} (l : list A) (i : Z) : option A :=
  let n := Z.of_nat (List.length l) in
  if 0 <=? i then nth_error l (Z.to_nat i)
  else if 0 <=? n + i then nth_error l (Z.to_nat (n + i))
  else None.

(** [bool(x)] of a float: every value but [0.0] and [-0.0] is truthy, [nan]
    included. *)
Definition float_truthy (x : float) : bool := negb (x =? 0)%float.

(** The builtin [min(a, b)] on two arguments: it keeps [a] unless [b < a]. *)
Definition py_min (a b : float) : float :=
  if (b <? a)%float then b else a.

(** [a > b] on floats is [b < a]. *)
Definition float_gtb (a b : float) : bool := (b <? a)%float.

(** *** String formatting *)

(** [str(n)] for an integer. *)
Definition str_int (n : Z) : string := NilZero.string_of_int (Z.to_int n).

(** Division of a non-negative [n] by a positive [d], rounded to the nearest
    integer, ties to even: the rounding of [format(x, '.5f')]. *)
Definition div_half_even (n d : Z) : Z :=
  let q := n / d in
  let r := n mod d in
  if 2 * r <? d then q
  else if d <? 2 * r then q + 1
  else if Z.even q then q else q + 1.

(** [|x| * 10^5] rounded to an integer, for the finite float of mantissa [m]
    and exponent [e] (value [m * 2^e]). *)
Definition scaled5 (m : positive) (e : Z) : Z :=
  if 0 <=? e then Z.pos m * 10 ^ 5 * 2 ^ e
  else div_half_even (Z.pos m * 10 ^ 5) (2 ^ (- e)).

Fixpoint zeros (n : nat) : string :=
  match n with
  | O => EmptyString
  | S k => String "0" (zeros k)
  end.

(** The digits of [n >= 0] as a fixed-point number with five decimals. *)
Definition fixed5 (n : Z) : string :=
  let ds := NilZero.string_of_uint (N.to_uint (Z.to_N n)) in
  let ds := zeros (6 - String.length ds) ++ ds in
  let k := (String.length ds - 5)%nat in
  substring 0 k ds ++ "." ++ substring k 5 ds.

(** [f"{x:.5f}"] *)
Definition format_5f (x : float) : string :=
  match Prim2SF x with
  | S754_nan => "nan"
  | S754_infinity s => if s then "-inf" else "inf"
  | S754_zero s => (if s then "-" else "") ++ fixed5 0
  | S754_finite s m e => (if s then "-" else "") ++ fixed5 (scaled5 m e)
  end.

(** ** The market snapshot *)

(** [datetime.time], naive: compared as the tuple (hour, minute, second,
    microsecond). *)
Record time : Type := mk_time {
  hour : N;
  minute : N;
  second : N;
  microsecond : N
}.

Definition time_leb (a b : time) : bool :=
  match (hour a ?= hour b)%N with
  | Lt => true
  | Gt => false
  | Eq =>
    match (minute a ?= minute b)%N with
    | Lt => true
    | Gt => false
    | Eq =>
      match (second a ?= second b)%N with
      | Lt => true
      | Gt => false
      | Eq => (microsecond a <=? microsecond b)%N
      end
    end
  end.

(** [pd.Timestamp]: a calendar day and a time of day; [decide] only reads
    [timestamp.time()]. *)
Record Timestamp : Type := mk_Timestamp {
  ts_day : Z;
  ts_time : time
}.

(** One row of the [ohlc_1m] frame. *)
Record Bar : Type := mk_Bar {
  bar_timestamp : Timestamp;
  bar_open : float;
  bar_high : float;
  bar_low : float;
  bar_close : float;
  bar_volume : float
}.

(** The [ohlc_1m] DataFrame: its rows, oldest first, and whether it has a
    ['volume'] column ([bar_volume] is meaningful only then).  A column is as
    long as the frame by construction. *)
Record DataFrame : Type := mk_DataFrame {
  df_bars : list Bar;
  df_has_volume : bool
}.

(** [len(df)] *)
Definition df_len (df : DataFrame) : Z := Z.of_nat (List.length (df_bars df)).

(** [df.index] *)
Definition df_index (df : DataFrame) : list Timestamp :=
  map bar_timestamp (df_bars df).

(** [df['close']] *)
Definition df_close (df : DataFrame) : list float :=
  map bar_close (df_bars df).

(** [df.get('volume', pd.Series(dtype=float))] *)
Definition df_get_volume (df : DataFrame) : list float :=
  if df_has_volume df then map bar_volume (df_bars df) else [].

(** [series.empty] *)
Definition series_empty {A : Type} (s : list A) : bool :=
  match s with
  | [] => true
  | _ :: _ => false
  end.

(** The argument of [decide]: a dict whose ['ohlc_1m'] entry may be missing
    ([data.get] then gives [None]). *)
Record Data : Type := mk_Data {
  ohlc_1m : option DataFrame
}.

(** ** The decision result *)

Inductive Action : Type :=
| buy
| sell
| hold.

Record Decision : Type := mk_Decision {
  action : Action;
  comment : string;
  sl_offset : option float;
  tp_offset : option float
}.

(** ** Control flow of a Python function body

    A block either falls through with a value ([Next]), executes [return]
    ([Return_]) or raises ([Raise_]). *)
Inductive Flow (A : Type) : Type :=
| Next (a : A)
| Return_ (d : Decision)
| Raise_ (e : Exn).

Arguments Next {A} a.
Arguments Return_ {A} d.
Arguments Raise_ {A} e.

Definition flow_bind {A B : Type} (m : Flow A) (k : A -> Flow B) : Flow B :=
  match m with
  | Next a => k a
  | Return_ d => Return_ d
  | Raise_ e => Raise_ e
  end.

Declare Scope flow_scope.
Delimit Scope flow_scope with flow.
Notation "x <- m ;; k" := (flow_bind m (fun x => k))
  (at level 61, m at next level, right associativity) : flow_scope.
Notation "m ;;; k" := (flow_bind m (fun _ => k))
  (at level 61, right associativity) : flow_scope.
Notation "' pat <- m ;; k" :=
  (flow_bind m (fun x => match x with pat => k end))
  (at level 61, pat pattern, m at next level, right associativity)
  : flow_scope.

(** A library call that either raises or gives a value. *)
Definition call {A : Type} (r : Exn + A) : Flow A :=
  match r with
  | inl e => Raise_ e
  | inr a => Next a
  end.

(** [s.iloc[i]] as a statement that may raise [IndexError]. *)
Definition iloc_ {A : Type} (l : list A) (i : Z) : Flow A :=
  match iloc l i with
  | Some a => Next a
  | None => Raise_ IndexError
  end.

(** [if c: return d] *)
Definition return_if (c : bool) (d : Decision) : Flow unit :=
  if c then Return_ d else Next tt.

(** What a call of [decide] leaves its caller with. *)
Inductive Outcome : Type :=
| Returns (d : Decision)
| Raises (e : Exn).

(** ** External collaborators

    [indicators.calculate_ema] and [indicators.calculate_atr] are imported
    from a module outside this file, and [Series.rolling(n).mean()] is
    pandas'.  [decide] is modelled over any implementation of them: each
    takes its arguments and gives a series or raises. *)
Class Indicators : Type := {
  calculate_ema : list float -> Z -> Exn + list float;
  calculate_atr : DataFrame -> Z -> Exn + list float
}.

Class Rolling : Type := {
  rolling_mean : list float -> Z -> Exn + list float
}.

(** ** SafeStrategy *)

Module Safe.

Definition NAME : string := "Safe (Low-Risk) Trend-Following Scalper".

(** The instance: its configuration and the trailing-stop flag. *)
Record SafeStrategy : Type := mk_SafeStrategy {
  ema_period : Z;
  atr_period : Z;
  stop_mult : float;
  target_mult : float;
  buffer_mult : float;
  volume_mult : float;
  session_start : time;
  session_end : time;
  trailing_activated : bool
}.

(** [SafeStrategy.__init__] *)
Definition init (ema_period atr_period : Z)
    (stop_mult target_mult buffer_mult volume_mult : float)
    (session_start session_end : time) : SafeStrategy :=
  {| ema_period := ema_period;
     atr_period := atr_period;
     stop_mult := stop_mult;
     target_mult := target_mult;
     buffer_mult := buffer_mult;
     volume_mult := volume_mult;
     session_start := session_start;
     session_end := session_end;
     trailing_activated := false |}.

(** [SafeStrategy()], every argument at its default. *)
Definition default : SafeStrategy :=
  init 50 14 1.0 0.5 0.2 1.5 (mk_time 8 0 0 0) (mk_time 16 0 0 0).

(** [self.trailing_activated = b] *)
Definition set_trailing_activated (self : SafeStrategy) (b : bool)
    : SafeStrategy :=
  {| ema_period := ema_period self;
     atr_period := atr_period self;
     stop_mult := stop_mult self;
     target_mult := target_mult self;
     buffer_mult := buffer_mult self;
     volume_mult := volume_mult self;
     session_start := session_start self;
     session_end := session_end self;
     trailing_activated := b |}.

(** [in_session]: [session_start <= timestamp.time() <= session_end] *)
Definition in_session (self : SafeStrategy) (timestamp : Timestamp) : bool :=
  let t := ts_time timestamp in
  time_leb (session_start self) t && time_leb t (session_end self).

(** [_hold] *)
Definition _hold (reason : string) : Decision :=
  {| action := hold;
     comment := NAME ++ ": " ++ reason;
     sl_offset := None;
     tp_offset := None |}.

(** The locals of [decide] that are live after line 82. *)
Record Readings : Type := mk_Readings {
  r_close : list float;
  r_vol : list float;
  r_ema : float;
  r_atr : float;
  r_price : float;
  r_avg_vol : option float
}.

Section Decide.

Context {indicators : Indicators} {pandas : Rolling}.

Local Open Scope flow_scope.

(** [decide], lines 66-82: the startup check, the session filter and the
    readings taken from the snapshot. *)
Definition read_snapshot (self : SafeStrategy) (data : Data) : Flow Readings :=
  (* df = data.get('ohlc_1m')
     if df is None or len(df) < max(self.ema_period, self.atr_period):
         return self._hold("insufficient data") *)
  df <- match ohlc_1m data with
        | None => Return_ (_hold "insufficient data")
        | Some df =>
          if df_len df <? Z.max (ema_period self) (atr_period self)
          then Return_ (_hold "insufficient data")
          else Next df
        end ;;
  (* now = df.index[-1] *)
  now <- iloc_ (df_index df) (-1) ;;
  (* if not self.in_session(now): return self._hold(...) *)
  return_if (negb (in_session self now)) (_hold "outside trading session") ;;;
  let close := df_close df in
  let vol := df_get_volume df in
  (* ema = calculate_ema(close, self.ema_period).iloc[-1] *)
  ema_series <- call (calculate_ema close (ema_period self)) ;;
  ema <- iloc_ ema_series (-1) ;;
  (* atr = calculate_atr(df, self.atr_period).iloc[-1] *)
  atr_series <- call (calculate_atr df (atr_period self)) ;;
  atr <- iloc_ atr_series (-1) ;;
  (* price = close.iloc[-1] *)
  price <- iloc_ close (-1) ;;
  (* avg_vol = None if vol.empty
               else vol.rolling(self.atr_period).mean().iloc[-1] *)
  avg_vol <- (if series_empty vol then Next None
              else means <- call (rolling_mean vol (atr_period self)) ;;
                   m <- iloc_ means (-1) ;;
                   Next (Some m)) ;;
  Next {| r_close := close; r_vol := vol; r_ema := ema; r_atr := atr;
          r_price := price; r_avg_vol := avg_vol |}.

(** Line 85, the condition
    [avg_vol and vol.iloc[-1] < avg_vol * self.volume_mult], as [if] reads
    it: [None] and a zero average are falsy, and only a truthy average lets
    the comparison run. *)
Definition low_volume (self : SafeStrategy) (r : Readings) : Flow bool :=
  match r_avg_vol r with
  | None => Next false
  | Some avg_vol =>
    if float_truthy avg_vol
    then latest <- iloc_ (r_vol r) (-1) ;;
         Next (latest <? avg_vol * volume_mult self)%float
    else Next false
  end.

(** Lines 84-86: the volume spike filter. *)
Definition volume_filter (self : SafeStrategy) (r : Readings) : Flow unit :=
  low <- low_volume self r ;;
  return_if low (_hold "low volume").

(** Line 89: [buffer = atr * self.buffer_mult] *)
Definition buffer (self : SafeStrategy) (r : Readings) : float :=
  (r_atr r * buffer_mult self)%float.

(** Line 90: [abs(price - ema) < buffer] *)
Definition within_buffer (self : SafeStrategy) (r : Readings) : bool :=
  (abs (r_price r - r_ema r) <? buffer self r)%float.

(** Lines 88-91: the buffer zone filter. *)
Definition buffer_filter (self : SafeStrategy) (r : Readings) : Flow unit :=
  return_if (within_buffer self r) (_hold "within buffer zone").

(** Lines 94-99: the trade direction and its comment. *)
Definition direction (self : SafeStrategy) (r : Readings) : Action * string :=
  if float_gtb (r_price r) (r_ema r)
  then (buy, "price " ++ format_5f (r_price r) ++ " above EMA"
               ++ str_int (ema_period self) ++ " + buffer")
  else (sell, "price " ++ format_5f (r_price r) ++ " below EMA"
               ++ str_int (ema_period self) ++ " - buffer").

(** Lines 106-109: the condition under which the trailing stop is armed. *)
Definition activates (self : SafeStrategy) (r : Readings) (a : Action) : bool :=
  negb (trailing_activated self) &&
  match a with
  | buy => float_gtb (r_price r) (r_ema r + 2 * buffer self r)%float
  | sell => (r_price r <? r_ema r - 2 * buffer self r)%float
  | hold => false
  end.

(** Lines 117-120: the tightened stop. *)
Definition tighten (a : Action) (sl price prev_close breakeven_offset : float)
    : float :=
  match a with
  | buy => py_min sl (price - (prev_close + breakeven_offset))%float
  | _ => py_min sl ((prev_close - breakeven_offset) - price)%float
  end.

(** Lines 93-127: direction, offsets and the trailing stop, run once every
    filter has passed.  The result comes with the instance as the call
    leaves it. *)
Definition trade (self : SafeStrategy) (r : Readings)
    : Outcome * SafeStrategy :=
  let '(act, comment) := direction self r in
  (* sl = atr * self.stop_mult; tp = atr * self.target_mult *)
  let sl := (r_atr r * stop_mult self)%float in
  let tp := (r_atr r * target_mult self)%float in
  (* if not self.trailing_activated and (...):
         self.trailing_activated = True
         comment += "; trailing stop activated" *)
  let '(self, comment) :=
    if activates self r act
    then (set_trailing_activated self true,
          comment ++ "; trailing stop activated")
    else (self, comment) in
  (* if self.trailing_activated: ... *)
  if trailing_activated self then
    let breakeven_offset := (r_atr r * 0.1)%float in
    (* prev_close = close.iloc[-2] *)
    match iloc (r_close r) (-2) with
    | None => (Raises IndexError, self)
    | Some prev_close =>
      let sl := tighten act sl (r_price r) prev_close breakeven_offset in
      (Returns {| action := act; comment := NAME ++ ": " ++ comment;
                  sl_offset := Some sl; tp_offset := Some tp |}, self)
    end
  else
    (Returns {| action := act; comment := NAME ++ ": " ++ comment;
                sl_offset := Some sl; tp_offset := Some tp |}, self).

(** Lines 66-86: everything before the buffer zone filter. *)
Definition before_buffer (self : SafeStrategy) (data : Data)
    : Flow Readings :=
  r <- read_snapshot self data ;;
  volume_filter self r ;;;
  Next r.

(** Lines 66-91: the four filters, in order. *)
Definition filters (self : SafeStrategy) (data : Data) : Flow Readings :=
  r <- before_buffer self data ;;
  buffer_filter self r ;;;
  Next r.

(** [SafeStrategy.decide] *)
Definition decide (self : SafeStrategy) (data : Data)
    : Outcome * SafeStrategy :=
  match filters self data with
  | Return_ d => (Returns d, self)
  | Raise_ e => (Raises e, self)
  | Next r => trade self r
  end.

(** The instance after a sequence of [decide] calls, oldest first; a call
    that raised leaves the instance as it was when the exception left. *)
Definition after_calls (self : SafeStrategy) (calls : list Data)
    : SafeStrategy :=
  fold_left (fun s data => snd (decide s data)) calls self.

End Decide.

End Safe.

(** ** The stateless strategies *)

(** A body that ran to its end returns its value. *)
Definition run_flow (m : Flow Decision) : Outcome :=
  match m with
  | Next d => Returns d
  | Return_ d => Returns d
  | Raise_ e => Raises e
  end.

(** The readings every stateless strategy starts with:
    [df = data.get('ohlc_1m')], the insufficient-data check against
    [ema_period], then [ema], [atr] and [price]. *)
Definition latest_readings {indicators : Indicators} (name : string)
    (ema_period atr_period : Z) (data : Data) : Flow (float * float * float) :=
  (df <- match ohlc_1m data with
         | None =>
           Return_ {| action := hold; comment := name ++ ": insufficient data";
                      sl_offset := None; tp_offset := None |}
         | Some df =>
           if df_len df <? ema_period
           then Return_ {| action := hold;
                           comment := name ++ ": insufficient data";
                           sl_offset := None; tp_offset := None |}
           else Next df
         end ;;
   ema_series <- call (calculate_ema (df_close df) ema_period) ;;
   ema <- iloc_ ema_series (-1) ;;
   atr_series <- call (calculate_atr df atr_period) ;;
   atr <- iloc_ atr_series (-1) ;;
   price <- iloc_ (df_close df) (-1) ;;
   Next (ema, atr, price))%flow.

Module Moderate.

Definition NAME : string := "Moderate Trend-Following Scalper".

Record ModerateStrategy : Type := mk_ModerateStrategy {
  ema_period : Z;
  atr_period : Z;
  stop_multiplier : float;
  target_multiplier : float
}.

(** [ModerateStrategy.__init__] *)
Definition init : ModerateStrategy :=
  {| ema_period := 20; atr_period := 14;
     stop_multiplier := 1.5; target_multiplier := 1.0 |}.

(** [ModerateStrategy.decide] *)
Definition decide {indicators : Indicators} (self : ModerateStrategy)
    (data : Data) : Outcome :=
  run_flow
    ('(ema, atr, price) <-
        latest_readings NAME (ema_period self) (atr_period self) data ;;
     '(act, comment) <-
        (if float_gtb price ema
         then Next (buy, NAME ++ ": bullish trend detected")
         else if (price <? ema)%float
         then Next (sell, NAME ++ ": bearish trend detected")
         else Return_ {| action := hold; comment := NAME ++ ": no clear trend";
                         sl_offset := None; tp_offset := None |}) ;;
     let sl_offset := (atr * stop_multiplier self)%float in
     let tp_offset := (atr * target_multiplier self)%float in
     Next {| action := act; comment := comment;
             sl_offset := Some sl_offset; tp_offset := Some tp_offset |})%flow.

End Moderate.

Module Aggressive.

Definition NAME : string := "Aggressive Trend-Following Scalper".

Record AggressiveStrategy : Type := mk_AggressiveStrategy {
  ema_period : Z;
  atr_period : Z;
  stop_multiplier : float;
  target_multiplier : float
}.

(** [AggressiveStrategy.__init__] *)
Definition init : AggressiveStrategy :=
  {| ema_period := 10; atr_period := 7;
     stop_multiplier := 2.0; target_multiplier := 1.5 |}.

(** [AggressiveStrategy.decide] *)
Definition decide {indicators : Indicators} (self : AggressiveStrategy)
    (data : Data) : Outcome :=
  run_flow
    ('(ema, atr, price) <-
        latest_readings NAME (ema_period self) (atr_period self) data ;;
     '(act, comment) <-
        (if float_gtb price ema
         then Next (buy, NAME ++ ": going long aggressively")
         else if (price <? ema)%float
         then Next (sell, NAME ++ ": going short aggressively")
         else Return_ {| action := hold;
                         comment := NAME ++ ": awaiting breakout";
                         sl_offset := None; tp_offset := None |}) ;;
     let sl_offset := (atr * stop_multiplier self)%float in
     let tp_offset := (atr * target_multiplier self)%float in
     Next {| action := act; comment := comment;
             sl_offset := Some sl_offset; tp_offset := Some tp_offset |})%flow.

End Aggressive.

Module Momentum.

Definition NAME : string := "Momentum Fade Scalper".

Record MomentumStrategy : Type := mk_MomentumStrategy {
  ema_period : Z;
  atr_period : Z;
  fade_threshold : float;
  stop_multiplier : float;
  target_multiplier : float
}.

(** [MomentumStrategy.__init__] *)
Definition init : MomentumStrategy :=
  {| ema_period := 20; atr_period := 14; fade_threshold := 1.5;
     stop_multiplier := 1.0; target_multiplier := 1.5 |}.

(** [MomentumStrategy.decide] *)
Definition decide {indicators : Indicators} (self : MomentumStrategy)
    (data : Data) : Outcome :=
  run_flow
    ('(ema, atr, price) <-
        latest_readings NAME (ema_period self) (atr_period self) data ;;
     let diff := (price - ema)%float in
     '(act, comment) <-
        (if float_gtb diff (atr * fade_threshold self)%float
         then Next (sell, NAME ++ ": fading overextension")
         else if (diff <? (- atr) * fade_threshold self)%float
         then Next (buy, NAME ++ ": fading downside spike")
         else Return_ {| action := hold;
                         comment := NAME ++ ": no fade opportunity";
                         sl_offset := None; tp_offset := None |}) ;;
     let sl_offset := (atr * stop_multiplier self)%float in
     let tp_offset := (atr * target_multiplier self)%float in
     Next {| action := act; comment := comment;
             sl_offset := Some sl_offset; tp_offset := Some tp_offset |})%flow.

End Momentum.

Module MeanReversion.

Definition NAME : string := "Mean-Reversion Scalper".

Record MeanReversionStrategy : Type := mk_MeanReversionStrategy {
  ema_period : Z;
  atr_period : Z;
  band_multiplier : float;
  stop_multiplier : float;
  target_multiplier : float
}.

(** [MeanReversionStrategy.__init__] *)
Definition init : MeanReversionStrategy :=
  {| ema_period := 20; atr_period := 14; band_multiplier := 2.0;
     stop_multiplier := 1.0; target_multiplier := 2.0 |}.

(** [MeanReversionStrategy.decide] *)
Definition decide {indicators : Indicators} (self : MeanReversionStrategy)
    (data : Data) : Outcome :=
  run_flow
    ('(ema, atr, price) <-
        latest_readings NAME (ema_period self) (atr_period self) data ;;
     let upper := (ema + atr * band_multiplier self)%float in
     let lower := (ema - atr * band_multiplier self)%float in
     '(act, comment) <-
        (if float_gtb price upper
         then Next (sell, NAME ++ ": price above upper band")
         else if (price <? lower)%float
         then Next (buy, NAME ++ ": price below lower band")
         else Return_ {| action := hold; comment := NAME ++ ": within bands";
                         sl_offset := None; tp_offset := None |}) ;;
     let sl_offset := (atr * stop_multiplier self)%float in
     let tp_offset := (atr * target_multiplier self)%float in
     Next {| action := act; comment := comment;
             sl_offset := Some sl_offset; tp_offset := Some tp_offset |})%flow.

End MeanReversion.

(** ** The strategy family

    The subclasses of [Strategy], as a closed set of variants with the
    shared [decide]. *)
Inductive Strategy : Type :=
| Safe_ (self : Safe.SafeStrategy)
| Moderate_ (self : Moderate.ModerateStrategy)
| Aggressive_ (self : Aggressive.AggressiveStrategy)
| Momentum_ (self : Momentum.MomentumStrategy)
| MeanReversion_ (self : MeanReversion.MeanReversionStrategy).

(** [strategy.decide(data)]: what the call gives back. *)
Definition Strategy_decide {indicators : Indicators} {pandas : Rolling}
    (strategy : Strategy) (data : Data) : Outcome :=
  match strategy with
  | Safe_ self => fst (Safe.decide self data)
  | Moderate_ self => Moderate.decide self data
  | Aggressive_ self => Aggressive.decide self data
  | Momentum_ self => Momentum.decide self data
  | MeanReversion_ self => MeanReversion.decide self data
  end.

(** ** Reference collaborators

    Concrete providers, used to run [decide] on explicit snapshots. *)

(** A machine integer as a float. *)
Definition float_of_Z (n : Z) : float := of_uint63 (Uint63.of_Z n).

(** [max(a, b)] on floats: keeps [a] unless [a < b]. *)
Definition py_max (a b : float) : float :=
  if (a <? b)%float then b else a.

Fixpoint ema_from (alpha prev : float) (xs : list float) : list float :=
  match xs with
  | [] => []
  | x :: xs' =>
    let e := (alpha * x + (1 - alpha) * prev)%float in
    e :: ema_from alpha e xs'
  end.

(** Modelled from the spec: [indicators.calculate_ema] is not in
    [strategies.py].  The spec asks for a pure function from a series and a
    positive period to a series of the same length; this is the usual
    exponential moving average, seeded with the first observation and
    smoothed with [2 / (period + 1)].  A period below 1 is outside the
    contract and gives an undefined ([nan]) series. *)
Definition ref_calculate_ema (series : list float) (period : Z)
    : Exn + list float :=
  if period <? 1 then inr (map (fun _ => nan) series)
  else
    match series with
    | [] => inr []
    | x :: xs => inr (x :: ema_from (2 / (float_of_Z period + 1))%float x xs)
    end.

(** The arithmetic mean of the last [n] of the values seen so far; undefined
    until [n] of them are there, and for an empty window. *)
Definition window_mean (n : nat) (seen : list float) : float :=
  if ((List.length seen <? n)%nat || (n =? 0)%nat)%bool then nan
  else
    (fold_left add (skipn (List.length seen - n) seen) 0
     / float_of_Z (Z.of_nat n))%float.

Fixpoint rolling_from (n : nat) (seen rest : list float) : list float :=
  match rest with
  | [] => []
  | x :: rest' =>
    let seen' := (seen ++ [x])%list in
    window_mean n seen' :: rolling_from n seen' rest'
  end.

(** [series.rolling(window).mean()] as pandas documents it: undefined until
    [window] observations are there, then the mean of the last [window]
    values; a negative window raises [ValueError]. *)
Definition ref_rolling_mean (series : list float) (window : Z)
    : Exn + list float :=
  if window <? 0 then inl ValueError
  else inr (rolling_from (Z.to_nat window) [] series).

(** The true range of each bar: its high-low span, widened to the previous
    close from the second bar on. *)
Fixpoint true_ranges (prev_close : option float) (bars : list Bar)
    : list float :=
  match bars with
  | [] => []
  | b :: bars' =>
    let span := (bar_high b - bar_low b)%float in
    let tr :=
      match prev_close with
      | None => span
      | Some c =>
        py_max span (py_max (abs (bar_high b - c)) (abs (bar_low b - c)))
      end in
    tr :: true_ranges (Some (bar_close b)) bars'
  end.

(** Modelled from the spec: [indicators.calculate_atr] is not in
    [strategies.py].  The spec asks for the true range smoothed by an
    average, as a series of the frame's length; this takes the simple
    moving average of the true range over [period] bars.  A negative period
    is outside the contract and gives an undefined ([nan]) series. *)
Definition ref_calculate_atr (df : DataFrame) (period : Z)
    : Exn + list float :=
  inr (rolling_from (Z.to_nat period) [] (true_ranges None (df_bars df))).

Definition ref_indicators : Indicators :=
  {| calculate_ema := ref_calculate_ema;
     calculate_atr := ref_calculate_atr |}.

Definition ref_rolling : Rolling :=
  {| rolling_mean := ref_rolling_mean |}.

(** [SafeStrategy.decide] with the reference collaborators. *)
Definition decide_ref : Safe.SafeStrategy -> Data -> Outcome * Safe.SafeStrategy :=
  @Safe.decide ref_indicators ref_rolling.

(** *** Sample snapshots *)

(** A bar at [h:m] on day 0 without volume. *)
Definition bar_at (h m : N) (o hi lo c : float) : Bar :=
  {| bar_timestamp := {| ts_day := 0; ts_time := mk_time h m 0 0 |};
     bar_open := o; bar_high := hi; bar_low := lo; bar_close := c;
     bar_volume := 0 |}.

(** Three one-minute bars closing at 98, 100 and 101; with an EMA period of
    3 and an ATR period of 1 the reference indicators read EMA = 100 and
    ATR = 2 at the last bar. *)
Definition rising_frame : DataFrame :=
  {| df_bars := [ bar_at 10 0 98 98.5 97.5 98;
                  bar_at 10 1 98 100.5 98 100;
                  bar_at 10 2 100 101.5 99.5 101 ];
     df_has_volume := false |}.

Definition rising_data : Data := {| ohlc_1m := Some rising_frame |}.

(** A Safe strategy with EMA period 3 and ATR period 1, the multipliers at
    their defaults. *)
Definition safe_3_1 : Safe.SafeStrategy :=
  Safe.init 3 1 1.0 0.5 0.2 1.5 (mk_time 8 0 0 0) (mk_time 16 0 0 0).

(** Four bars closing at 96, 96, 102 and 101: the last close is above the
    EMA but below the close before it. *)
Definition pullback_frame : DataFrame :=
  {| df_bars := [ bar_at 10 0 96 96.5 95.5 96;
                  bar_at 10 1 96 96.5 95.5 96;
                  bar_at 10 2 96 102 96 102;
                  bar_at 10 3 102 102 100 101 ];
     df_has_volume := false |}.

Definition pullback_data : Data := {| ohlc_1m := Some pullback_frame |}.

(** Four bars closing at 104, 104, 98 and 99: the last close is below the
    EMA by more than two buffers. *)
Definition falling_frame : DataFrame :=
  {| df_bars := [ bar_at 10 4 104 104.5 103.5 104;
                  bar_at 10 5 104 104.5 103.5 104;
                  bar_at 10 6 104 104 98 98;
                  bar_at 10 7 98 100 98 99 ];
     df_has_volume := false |}.

Definition falling_data : Data := {| ohlc_1m := Some falling_frame |}.

(** The first two bars of [rising_frame]. *)
Definition short_frame : DataFrame :=
  {| df_bars := [ bar_at 10 0 98 98.5 97.5 98;
                  bar_at 10 1 98 100.5 98 100 ];
     df_has_volume := false |}.

Definition short_data : Data := {| ohlc_1m := Some short_frame |}.

(** A call without the ['ohlc_1m'] entry. *)
Definition no_data : Data := {| ohlc_1m := None |}.

(** A bar at [h:m] on day 0 with volume [v]. *)
Definition bar_vol (h m : N) (o hi lo c v : float) : Bar :=
  {| bar_timestamp := {| ts_day := 0; ts_time := mk_time h m 0 0 |};
     bar_open := o; bar_high := hi; bar_low := lo; bar_close := c;
     bar_volume := v |}.

(** [rising_frame] with a volume column; the last volume, 300, is 1.5
    times the mean of the last two. *)
Definition volume_frame : DataFrame :=
  {| df_bars := [ bar_vol 10 0 98 98.5 97.5 98 100;
                  bar_vol 10 1 98 100.5 98 100 100;
                  bar_vol 10 2 100 101.5 99.5 101 300 ];
     df_has_volume := true |}.

Definition volume_data : Data := {| ohlc_1m := Some volume_frame |}.

(** A Safe strategy with EMA period 3 and ATR period 2. *)
Definition safe_3_2 : Safe.SafeStrategy :=
  Safe.init 3 2 1.0 0.5 0.2 1.5 (mk_time 8 0 0 0) (mk_time 16 0 0 0).

(** [rising_frame] with a last bar spanning 98 to 103: the reference ATR
    is 5, the buffer 1, and the last close, 101, is exactly one buffer
    above the EMA of 100. *)
Definition boundary_frame : DataFrame :=
  {| df_bars := [ bar_at 10 0 98 98.5 97.5 98;
                  bar_at 10 1 98 100.5 98 100;
                  bar_at 10 2 100 103 98 101 ];
     df_has_volume := false |}.

Definition boundary_data : Data := {| ohlc_1m := Some boundary_frame |}.

(** A single bar with no range, for a strategy whose periods are both 1. *)
Definition one_bar_data : Data :=
  {| ohlc_1m := Some {| df_bars := [ bar_at 10 0 100 100 100 100 ];
                        df_has_volume := false |} |}.

Definition safe_1_1 : Safe.SafeStrategy :=
  Safe.init 1 1 1.0 0.5 0.2 1.5 (mk_time 8 0 0 0) (mk_time 16 0 0 0).

(** What [decide] reads from [rising_data] and [boundary_data] with the
    reference indicators, and what it returns on [rising_data]. *)
Definition rising_readings : Safe.Readings :=
  {| Safe.r_close := [98; 100; 101]%float;
     Safe.r_vol := [];
     Safe.r_ema := 100;
     Safe.r_atr := 2;
     Safe.r_price := 101;
     Safe.r_avg_vol := None |}.

Definition boundary_readings : Safe.Readings :=
  {| Safe.r_close := [98; 100; 101]%float;
     Safe.r_vol := [];
     Safe.r_ema := 100;
     Safe.r_atr := 5;
     Safe.r_price := 101;
     Safe.r_avg_vol := None |}.

Definition volume_readings : Safe.Readings :=
  {| Safe.r_close := [98; 100; 101]%float;
     Safe.r_vol := [100; 100; 300]%float;
     Safe.r_ema := 100;
     Safe.r_atr := 2.25;
     Safe.r_price := 101;
     Safe.r_avg_vol := Some 200%float |}.

Definition rising_decision : Decision :=
  {| action := buy;
     comment := "Safe (Low-Risk) Trend-Following Scalper: price 101.00000 above EMA3 + buffer; trailing stop activated";
     sl_offset := Some (101 - (100 + 0.2))%float;
     tp_offset := Some 1%float |}.

(** A decision's offsets go with its action: a hold has neither offset, a
    buy or a sell has both. *)
Definition offsets_follow_action (d : Decision) : Prop :=
  (action d = hold <-> sl_offset d = None /\ tp_offset d = None) /\
  (action d = buy \/ action d = sell <->
   exists sl tp, sl_offset d = Some sl /\ tp_offset d = Some tp).

(** [sub in s] on strings. *)
Definition contains (s sub : string) : Prop :=
  exists pre post, s = pre ++ sub ++ post.

(** *** Attributes shared by the strategy classes *)

(** [strategy.NAME] *)
Definition Strategy_NAME (strategy : Strategy) : string :=
  match strategy with
  | Safe_ _ => Safe.NAME
  | Moderate_ _ => Moderate.NAME
  | Aggressive_ _ => Aggressive.NAME
  | Momentum_ _ => Momentum.NAME
  | MeanReversion_ _ => MeanReversion.NAME
  end.

(** [strategy.ema_period] *)
Definition Strategy_ema_period (strategy : Strategy) : Z :=
  match strategy with
  | Safe_ self => Safe.ema_period self
  | Moderate_ self => Moderate.ema_period self
  | Aggressive_ self => Aggressive.ema_period self
  | Momentum_ self => Momentum.ema_period self
  | MeanReversion_ self => MeanReversion.ema_period self
  end.

(** [strategy.atr_period] *)
Definition Strategy_atr_period (strategy : Strategy) : Z :=
  match strategy with
  | Safe_ self => Safe.atr_period self
  | Moderate_ self => Moderate.atr_period self
  | Aggressive_ self => Aggressive.atr_period self
  | Momentum_ self => Momentum.atr_period self
  | MeanReversion_ self => MeanReversion.atr_period self
  end.

(** What the first [if] of each [decide] compares [len(df)] with:
    [max(self.ema_period, self.atr_period)] in [SafeStrategy],
    [self.ema_period] in the others. *)
Definition Strategy_startup_bars (strategy : Strategy) : Z :=
  match strategy with
  | Safe_ self => Z.max (Safe.ema_period self) (Safe.atr_period self)
  | _ => Strategy_ema_period strategy
  end.

(** The hold every [decide] returns from its first [if]. *)
Definition insufficient_data_hold (strategy : Strategy) : Decision :=
  {| action := hold;
     comment := Strategy_NAME strategy ++ ": insufficient data";
     sl_offset := None;
     tp_offset := None |}.

(** [s.startswith(prefix)] *)
Definition startswith (s prefix : string) : Prop :=
  exists rest, s = prefix ++ rest.

(** Two outcomes carry the same signal: the same exception, or decisions
    with the same action and offsets (the comments may differ). *)
Definition same_signal (o1 o2 : Outcome) : Prop :=
  match o1, o2 with
  | Returns d1, Returns d2 =>
    action d1 = action d2 /\
    sl_offset d1 = sl_offset d2 /\
    tp_offset d1 = tp_offset d2
  | Raises e1, Raises e2 => e1 = e2
  | _, _ => False
  end.

(** Small instances of the stateless strategies, for three-bar frames. *)
Definition moderate_3_1 : Moderate.ModerateStrategy :=
  {| Moderate.ema_period := 3; Moderate.atr_period := 1;
     Moderate.stop_multiplier := 1.5; Moderate.target_multiplier := 1.0 |}.

(** A Safe strategy whose session runs from 22:00 to 06:00. *)
Definition safe_overnight : Safe.SafeStrategy :=
  Safe.init 3 1 1.0 0.5 0.2 1.5 (mk_time 22 0 0 0) (mk_time 6 0 0 0).

(** A frame without rows. *)
Definition empty_frame : DataFrame :=
  {| df_bars := []; df_has_volume := false |}.

Definition empty_data : Data := {| ohlc_1m := Some empty_frame |}.

(** A Safe strategy whose periods are both 0. *)
Definition safe_0_0 : Safe.SafeStrategy :=
  Safe.init 0 0 1.0 0.5 0.2 1.5 (mk_time 8 0 0 0) (mk_time 16 0 0 0).

(** Indicators whose EMA is undefined everywhere and whose ATR is 1. *)
Definition nan_ema_indicators : Indicators :=
  {| calculate_ema := fun series _ => inr (map (fun _ => nan) series);
     calculate_atr := fun df _ => inr (map (fun _ => 1%float) (df_bars df)) |}.

(** A flat frame: three bars at 100 with no range. *)
Definition flat_frame : DataFrame :=
  {| df_bars := [ bar_at 10 0 100 100 100 100;
                  bar_at 10 1 100 100 100 100;
                  bar_at 10 2 100 100 100 100 ];
     df_has_volume := false |}.

Definition flat_data : Data := {| ohlc_1m := Some flat_frame |}.

(** [s.endswith(suffix)] *)
Definition endswith (s suffix : string) : Prop :=
  exists pre, s = pre ++ suffix.

(** The last character of a string, if it has one. *)
Fixpoint last_char (s : string) : option ascii :=
  match s with
  | EmptyString => None
  | String c EmptyString => Some c
  | String _ rest => last_char rest
  end.

(** What [decide] reads from [rising_data] with [nan_ema_indicators], and
    from [flat_data] with the reference indicators. *)
Definition nan_ema_readings : Safe.Readings :=
  {| Safe.r_close := [98; 100; 101]%float;
     Safe.r_vol := [];
     Safe.r_ema := nan;
     Safe.r_atr := 1;
     Safe.r_price := 101;
     Safe.r_avg_vol := None |}.

Definition flat_readings : Safe.Readings :=
  {| Safe.r_close := [100; 100; 100]%float;
     Safe.r_vol := [];
     Safe.r_ema := 100;
     Safe.r_atr := 0;
     Safe.r_price := 100;
     Safe.r_avg_vol := None |}.

(** 08:00 on day 0. *)
Definition eight_oclock : Timestamp :=
  {| ts_day := 0; ts_time := mk_time 8 0 0 0 |}.

(** * Properties *)

(** ** Facts about binary64 comparisons *)

Module FloatFacts.

Local Open Scope float_scope.

(** [x == y] excludes [x < y]. *)
Lemma eqb_true_ltb_false (x y : float) :
  (x =? y) = true -> (x <? y) = false.
Proof.
  rewrite eqb_spec, ltb_spec. unfold SFeqb, SFltb.
  destruct (SFcompare (Prim2SF x) (Prim2SF y)) as [[ | | ] | ];
    intros H; try reflexivity; discriminate H.
Qed.

(** Nothing is below itself, [nan] included. *)
Lemma ltb_irrefl (x : float) : (x <? x) = false.
Proof.
  destruct (x =? x) eqn:E.
  - now apply eqb_true_ltb_false.
  - rewrite ltb_spec. rewrite eqb_spec in E. unfold SFeqb in E. unfold SFltb.
    destruct (SFcompare (Prim2SF x) (Prim2SF x)) as [[ | | ] | ] eqn:C;
      try reflexivity; try discriminate E.
    exfalso. destruct (Prim2SF x) as [[ | ] | [ | ] | | [ | ] m e]; simpl in C;
      try discriminate C.
    + rewrite Z.compare_refl in C.
      rewrite Pos.compare_cont_refl in C. discriminate C.
    + rewrite Z.compare_refl in C.
      rewrite Pos.compare_cont_refl in C. discriminate C.
Qed.

(** The comparison-based test for [nan] finds exactly the [nan] of the
    specification. *)
Lemma is_nan_Prim2SF (x : float) :
  is_nan x = true -> Prim2SF x = S754_nan.
Proof.
  unfold is_nan. rewrite eqb_spec. unfold SFeqb.
  destruct (Prim2SF x) as [[ | ] | [ | ] | | [ | ] m e]; simpl;
    try discriminate; try reflexivity;
    rewrite Z.compare_refl, Pos.compare_cont_refl; discriminate.
Qed.

(** No float is below a product with [nan]. *)
Lemma ltb_nan_mul (x a m : float) :
  is_nan a = true -> (x <? a * m) = false.
Proof.
  intros Ha. apply is_nan_Prim2SF in Ha.
  rewrite ltb_spec, mul_spec, Ha. unfold SF64mul, SFmul, SFltb.
  destruct (Prim2SF x); reflexivity.
Qed.

(** A float equal to [b] has an absolute value that is not below [b]. *)
Lemma eqb_true_abs_ltb_false (x b : float) :
  (x =? b) = true -> (abs x <? b) = false.
Proof.
  rewrite eqb_spec, ltb_spec, abs_spec. unfold SFeqb, SFltb.
  destruct (Prim2SF x) as [[ | ] | [ | ] | | [ | ] m1 e1];
    destruct (Prim2SF b) as [[ | ] | [ | ] | | [ | ] m2 e2];
    simpl; try reflexivity; try discriminate;
    destruct (e1 ?= e2)%Z; try reflexivity; try discriminate;
    destruct (Pos.compare_cont Eq m1 m2); try reflexivity; discriminate.
Qed.

(** Rounding keeps the sign it is given, so the magnitude of a rounded
    value does not depend on it. *)
Lemma SFabs_binary_round (s : bool) (m : positive) (e : Z) :
  SFabs (binary_round prec emax s m e)
  = SFabs (binary_round prec emax false m e).
Proof.
  unfold binary_round, binary_round_aux.
  destruct (shl_align m e _) as [mz ez].
  destruct (shr_fexp prec emax (Z.pos mz) ez loc_Exact) as [mrs' e'].
  destruct (shr_fexp prec emax _ e' loc_Exact) as [mrs'' e''].
  destruct (shr_m mrs''); try reflexivity.
  destruct (e'' <=? emax - prec)%Z; reflexivity.
Qed.

Lemma SFabs_binary_normalize_opp (z e : Z) :
  SFabs (binary_normalize prec emax (- z) e false)
  = SFabs (binary_normalize prec emax z e false).
Proof.
  destruct z as [ | p | p]; simpl; try reflexivity.
  - apply SFabs_binary_round.
  - symmetry. apply SFabs_binary_round.
Qed.

(** [|x - y|] and [|y - x|] are the same float. *)
Lemma abs_sub_comm (x y : float) : abs (x - y) = abs (y - x).
Proof.
  apply Prim2SF_inj. rewrite !abs_spec, !sub_spec. unfold SF64sub, SFsub.
  destruct (Prim2SF x) as [[ | ] | [ | ] | | sx mx ex];
    destruct (Prim2SF y) as [[ | ] | [ | ] | | sy my ey];
    try reflexivity.
  rewrite (Z.min_comm ey ex).
  rewrite <- SFabs_binary_normalize_opp. f_equal. f_equal.
  change (IntDef.Z.min ex ey) with (Z.min ex ey).
  generalize (Z.pos (fst (shl_align mx ex (Z.min ex ey))))
             (Z.pos (fst (shl_align my ey (Z.min ex ey)))).
  intros a b. destruct sx, sy; simpl; lia.
Qed.

End FloatFacts.

(** ** SafeStrategy *)

Module SafeProps.

Import Safe.

(** Case analysis on the next [match] or [if] of a hypothesis or the goal. *)
Ltac break_hyp H :=
  match type of H with
  | context [match ?x with _ => _ end] =>
    lazymatch x with
    | context [match _ with _ => _ end] => fail
    | _ => destruct x eqn:?; try discriminate H
    end
  end.

Ltac unfold_flow :=
  unfold flow_bind, call, iloc_, return_if.

Ltac unfold_flow_in H :=
  unfold flow_bind, call, iloc_, return_if in H.

Section Properties.

Context {indicators : Indicators} {pandas : Rolling}.

(** *** What the readings are *)

(** When lines 66-82 fall through, the snapshot is there and long enough,
    its last bar is in session, and the readings are the last values of the
    indicator series, the last close and, when there is a volume column on
    a non-empty frame, the last rolling mean. *)
Lemma read_snapshot_Next (self : SafeStrategy) (data : Data) (r : Readings) :
  read_snapshot self data = Next r ->
  exists df now,
    ohlc_1m data = Some df /\
    Z.max (ema_period self) (atr_period self) <= df_len df /\
    iloc (df_index df) (-1) = Some now /\
    in_session self now = true /\
    r_close r = df_close df /\
    r_vol r = df_get_volume df /\
    (exists s, calculate_ema (df_close df) (ema_period self) = inr s /\
               iloc s (-1) = Some (r_ema r)) /\
    (exists s, calculate_atr df (atr_period self) = inr s /\
               iloc s (-1) = Some (r_atr r)) /\
    iloc (df_close df) (-1) = Some (r_price r) /\
    match r_avg_vol r with
    | None => df_get_volume df = []
    | Some avg =>
      df_get_volume df <> [] /\
      exists s, rolling_mean (df_get_volume df) (atr_period self) = inr s /\
                iloc s (-1) = Some avg
    end.
Proof.
  unfold read_snapshot. unfold_flow. intros H.
  destruct (ohlc_1m data) as [df | ] eqn:Hdf; [ | discriminate H].
  destruct (df_len df <? Z.max (ema_period self) (atr_period self)) eqn:Hlen;
    [discriminate H | ].
  apply Z.ltb_ge in Hlen.
  destruct (iloc (df_index df) (-1)) as [now | ] eqn:Hnow; [ | discriminate H].
  destruct (in_session self now) eqn:Hsess; [ | discriminate H]. simpl in H.
  destruct (calculate_ema (df_close df) (ema_period self)) as [ | es] eqn:He;
    [discriminate H | ].
  destruct (iloc es (-1)) as [ema | ] eqn:Hema; [ | discriminate H].
  destruct (calculate_atr df (atr_period self)) as [ | ats] eqn:Ha;
    [discriminate H | ].
  destruct (iloc ats (-1)) as [atr | ] eqn:Hatr; [ | discriminate H].
  destruct (iloc (df_close df) (-1)) as [price | ] eqn:Hprice;
    [ | discriminate H].
  exists df, now.
  destruct (df_get_volume df) as [ | v vs] eqn:Hvol; simpl in H.
  - injection H as <-. simpl. repeat split; eauto.
  - destruct (rolling_mean (v :: vs) (atr_period self)) as [ | ms] eqn:Hm;
      [discriminate H | ].
    destruct (iloc ms (-1)) as [m | ] eqn:Hlast; [ | discriminate H].
    injection H as <-. simpl. repeat split; eauto. discriminate.
Qed.

(** A non-empty list has a last element. *)
Lemma iloc_last_Some {A : Type} (l : list A) :
  l <> [] -> exists a, iloc l (-1) = Some a.
Proof.
  intros Hl. unfold iloc. change (0 <=? -1) with false. cbv iota.
  destruct l as [ | x l]; [congruence | ].
  assert (Hlen : 0 <= Z.of_nat (List.length (x :: l)) + -1)
    by (simpl List.length; lia).
  apply Z.leb_le in Hlen. rewrite Hlen.
  destruct (nth_error (x :: l) (Z.to_nat (Z.of_nat (List.length (x :: l)) + -1)))
    eqn:E; [eauto | ].
  apply nth_error_None in E. simpl List.length in *. lia.
Qed.

(** A list of at least two elements has a second-to-last one, and only
    such a list has. *)
Lemma iloc_prev_Some {A : Type} (l : list A) :
  2 <= Z.of_nat (List.length l) <-> exists a, iloc l (-2) = Some a.
Proof.
  unfold iloc. change (0 <=? -2) with false. cbv iota. split.
  - intros Hlen.
    assert (H0 : 0 <= Z.of_nat (List.length l) + -2) by lia.
    apply Z.leb_le in H0. rewrite H0.
    destruct (nth_error l (Z.to_nat (Z.of_nat (List.length l) + -2))) eqn:E;
      [eauto | ].
    apply nth_error_None in E. lia.
  - intros [a Ha].
    destruct (0 <=? Z.of_nat (List.length l) + -2) eqn:E; [ | discriminate Ha].
    apply Z.leb_le in E. lia.
Qed.

(** The volume comparison never raises on readings taken by [decide]: a
    rolling mean is only there for a non-empty volume series. *)
Lemma low_volume_total (self : SafeStrategy) (data : Data) (r : Readings) :
  read_snapshot self data = Next r ->
  exists b, low_volume self r = Next b.
Proof.
  intros H. apply read_snapshot_Next in H.
  destruct H as (df & now & _ & _ & _ & _ & _ & Hvol & _ & _ & _ & Havg).
  unfold low_volume. unfold_flow.
  destruct (r_avg_vol r) as [avg | ]; [ | eauto].
  destruct (float_truthy avg); [ | eauto].
  destruct Havg as [Hne _]. rewrite <- Hvol in Hne.
  destruct (iloc_last_Some (r_vol r) Hne) as [v ->]. eauto.
Qed.

(** The decisions of the four filters differ from one another. *)
Lemma hold_reason_inj (a b : string) : _hold a = _hold b -> a = b.
Proof.
  unfold _hold. intros H. now injection H as H.
Qed.

(** [trade] never holds. *)
Lemma trade_not_hold (self self' : SafeStrategy) (r : Readings) (d : Decision) :
  trade self r = (Returns d, self') -> action d <> hold.
Proof.
  unfold trade. destruct (direction self r) as [act c] eqn:Hdir.
  assert (Hact : act <> hold).
  { unfold direction in Hdir.
    destruct (float_gtb (r_price r) (r_ema r)); injection Hdir as <- <-;
      discriminate. }
  intros H. repeat break_hyp H; injection H as <- <-; exact Hact.
Qed.

(** *** The shape of a call *)

(** [decide] is its filters in order, then [trade]; a call that stops in a
    filter leaves the instance as it found it. *)
Lemma decide_outcome (self : SafeStrategy) (data : Data) :
  match read_snapshot self data with
  | Return_ d => decide self data = (Returns d, self)
  | Raise_ e => decide self data = (Raises e, self)
  | Next r =>
    match low_volume self r with
    | Return_ d => decide self data = (Returns d, self)
    | Raise_ e => decide self data = (Raises e, self)
    | Next true => decide self data = (Returns (_hold "low volume"), self)
    | Next false =>
      if within_buffer self r
      then decide self data = (Returns (_hold "within buffer zone"), self)
      else decide self data = trade self r
    end
  end.
Proof.
  unfold decide, filters, before_buffer, volume_filter, buffer_filter.
  unfold_flow.
  destruct (read_snapshot self data) as [r | d | e]; try reflexivity.
  destruct (low_volume self r) as [[ | ] | d | e]; try reflexivity.
  destruct (within_buffer self r); reflexivity.
Qed.

(** The two ways lines 66-82 return. *)
Lemma read_snapshot_Return (self : SafeStrategy) (data : Data) (d : Decision) :
  read_snapshot self data = Return_ d ->
  (d = _hold "insufficient data" /\
   (ohlc_1m data = None \/
    exists df, ohlc_1m data = Some df /\
               df_len df < Z.max (ema_period self) (atr_period self))) \/
  (d = _hold "outside trading session" /\
   exists df now,
     ohlc_1m data = Some df /\
     Z.max (ema_period self) (atr_period self) <= df_len df /\
     iloc (df_index df) (-1) = Some now /\
     in_session self now = false).
Proof.
  unfold read_snapshot. unfold_flow. intros H.
  destruct (ohlc_1m data) as [df | ] eqn:Hdf.
  - destruct (df_len df <? Z.max (ema_period self) (atr_period self)) eqn:Hlen.
    + injection H as <-. left. split; [reflexivity | ].
      right. exists df. split; [reflexivity | ]. now apply Z.ltb_lt.
    + apply Z.ltb_ge in Hlen.
      destruct (iloc (df_index df) (-1)) as [now | ] eqn:Hnow;
        [ | discriminate H].
      destruct (in_session self now) eqn:Hsess; simpl in H.
      * repeat break_hyp H.
      * injection H as <-. right. split; [reflexivity | ].
        exists df, now. auto.
  - injection H as <-. left. split; [reflexivity | ]. now left.
Qed.

(** Too few bars, or none: the startup check returns. *)
Lemma read_snapshot_insufficient (self : SafeStrategy) (data : Data) :
  (ohlc_1m data = None \/
   exists df, ohlc_1m data = Some df /\
              df_len df < Z.max (ema_period self) (atr_period self)) ->
  read_snapshot self data = Return_ (_hold "insufficient data").
Proof.
  unfold read_snapshot. unfold_flow.
  intros [-> | (df & -> & Hlen)]; [reflexivity | ].
  apply Z.ltb_lt in Hlen. now rewrite Hlen.
Qed.

(** Readings taken by [decide] give the volume comparison a boolean. *)
Lemma low_volume_cases (self : SafeStrategy) (data : Data) (r : Readings) :
  read_snapshot self data = Next r ->
  low_volume self r = Next true \/ low_volume self r = Next false.
Proof.
  intros H. destruct (low_volume_total self data r H) as [[ | ] Hb]; auto.
Qed.

(** [trade] changes the instance in one way only: it arms the latch. *)
Lemma trade_state (self self' : SafeStrategy) (r : Readings) (o : Outcome) :
  trade self r = (o, self') ->
  self' = self \/
  (trailing_activated self = false /\ self' = set_trailing_activated self true).
Proof.
  unfold trade. destruct (direction self r) as [act c].
  destruct (activates self r act) eqn:Hact.
  - intros H. right. split.
    + unfold activates in Hact. apply andb_prop in Hact as [Hneg _].
      now apply negb_true_iff in Hneg.
    + simpl in H. destruct (iloc (r_close r) (-2)); now injection H as _ <-.
  - intros H. left. repeat break_hyp H; now injection H as _ <-.
Qed.

(** *** The data-sufficiency filter *)

(** C4.  [decide] returns the hold decision with reason "insufficient data"
    exactly when the snapshot is absent or has fewer than
    [max(ema_period, atr_period)] bars.  In particular a snapshot of exactly
    that many bars is not rejected for insufficient data, and one with one
    bar fewer is. *)
Theorem insufficient_data_iff (self : SafeStrategy) (data : Data) :
  (fst (decide self data) = Returns (_hold "insufficient data") <->
   (ohlc_1m data = None \/
    exists df, ohlc_1m data = Some df /\
               df_len df < Z.max (ema_period self) (atr_period self))) /\
  (forall df,
     ohlc_1m data = Some df ->
     df_len df = Z.max (ema_period self) (atr_period self) ->
     fst (decide self data) <> Returns (_hold "insufficient data")) /\
  (forall df,
     ohlc_1m data = Some df ->
     df_len df = Z.max (ema_period self) (atr_period self) - 1 ->
     fst (decide self data) = Returns (_hold "insufficient data")).
Proof.
  assert (Hiff :
    fst (decide self data) = Returns (_hold "insufficient data") <->
    (ohlc_1m data = None \/
     exists df, ohlc_1m data = Some df /\
                df_len df < Z.max (ema_period self) (atr_period self))).
  { split.
    - intros H. pose proof (decide_outcome self data) as Hd.
      destruct (read_snapshot self data) as [r | d | e] eqn:Hread.
      + exfalso.
        destruct (low_volume_cases self data r Hread) as [Hlow | Hlow];
          rewrite Hlow in Hd.
        * rewrite Hd in H. simpl in H. injection H as H. discriminate H.
        * destruct (within_buffer self r).
          -- rewrite Hd in H. simpl in H. injection H as H. discriminate H.
          -- destruct (trade self r) as [o s'] eqn:Htrade.
             rewrite Hd in H. simpl in H. subst o.
             now apply trade_not_hold in Htrade.
      + rewrite Hd in H. simpl in H. injection H as ->.
        apply read_snapshot_Return in Hread as [[_ Hins] | [Hout _]];
          [exact Hins | ].
        apply hold_reason_inj in Hout. discriminate Hout.
      + rewrite Hd in H. discriminate H.
    - intros H. apply read_snapshot_insufficient in H.
      pose proof (decide_outcome self data) as Hd. rewrite H in Hd.
      now rewrite Hd. }
  split; [exact Hiff | split].
  - intros df Hdf Hlen H. apply Hiff in H as [H | (df' & H & Hlt)].
    + congruence.
    + assert (df' = df) by congruence. subst df'. lia.
  - intros df Hdf Hlen. apply Hiff. right. exists df. split; [exact Hdf | lia].
Qed.

(** *** Holds leave the instance alone *)

(** C7.  A call of [decide] that returns a hold leaves the instance exactly
    as it was, flag and configuration.  An instance that differs after the
    call went through all four filters, had its latch unset before, and
    differs only by the latch being set. *)
Theorem hold_leaves_instance_unchanged (self self' : SafeStrategy)
    (data : Data) (o : Outcome) :
  decide self data = (o, self') ->
  (forall d, o = Returns d -> action d = hold -> self' = self) /\
  (self' <> self ->
   exists r, filters self data = Next r /\
             trailing_activated self = false /\
             self' = set_trailing_activated self true).
Proof.
  unfold decide. intros H.
  destruct (filters self data) as [r | d0 | e] eqn:Hf.
  - split.
    + intros d -> Hhold. exfalso.
      now apply trade_not_hold in H.
    + intros Hneq. exists r. split; [reflexivity | ].
      apply trade_state in H as [H | H]; [congruence | exact H].
  - injection H as <- <-. split; [reflexivity | congruence].
  - injection H as <- <-. split; [reflexivity | congruence].
Qed.

(** *** The trailing-stop latch *)

(** A call never unsets the latch. *)
Lemma decide_keeps_latch (self : SafeStrategy) (data : Data) :
  trailing_activated self = true ->
  trailing_activated (snd (decide self data)) = true.
Proof.
  intros Hon. destruct (decide self data) as [o self'] eqn:Hd.
  unfold decide in Hd.
  destruct (filters self data) as [r | d | e].
  - apply trade_state in Hd as [-> | [Hoff _]]; [exact Hon | congruence].
  - now injection Hd as _ <-.
  - now injection Hd as _ <-.
Qed.

Lemma after_calls_keeps_latch (calls : list Data) (self : SafeStrategy) :
  trailing_activated self = true ->
  trailing_activated (after_calls self calls) = true.
Proof.
  revert self. induction calls as [ | data calls IH]; intros self Hon.
  - exact Hon.
  - simpl. apply IH. now apply decide_keeps_latch.
Qed.

(** C2.  A fresh instance has [trailing_activated] false, and the flag is a
    one-way latch: if it is set after some sequence of [decide] calls, it is
    set after any further calls, whatever their snapshots and whatever they
    return or raise. *)
Theorem trailing_latch :
  (forall ema_period atr_period stop_mult target_mult buffer_mult volume_mult
          session_start session_end,
     trailing_activated
       (init ema_period atr_period stop_mult target_mult buffer_mult
             volume_mult session_start session_end) = false) /\
  (forall (self : SafeStrategy) (calls later : list Data),
     trailing_activated (after_calls self calls) = true ->
     trailing_activated (after_calls self (calls ++ later)) = true).
Proof.
  split; [reflexivity | ].
  intros self calls later Hon. unfold after_calls.
  rewrite fold_left_app. now apply after_calls_keeps_latch.
Qed.

(** *** Passing the filters *)

(** Whatever a filter returns is a hold built by [_hold]. *)
Lemma filters_Return (self : SafeStrategy) (data : Data) (d : Decision) :
  filters self data = Return_ d -> exists reason, d = _hold reason.
Proof.
  unfold filters, before_buffer, volume_filter, buffer_filter. unfold_flow.
  intros H.
  destruct (read_snapshot self data) as [r | d0 | e] eqn:Hread;
    [ | | discriminate H].
  - destruct (low_volume self r) as [[ | ] | d0 | e] eqn:Hlow;
      try discriminate H.
    + injection H as <-. eauto.
    + destruct (within_buffer self r); [ | discriminate H].
      injection H as <-. eauto.
    + destruct (low_volume_cases self data r Hread); congruence.
  - injection H as <-.
    apply read_snapshot_Return in Hread as [[-> _] | [-> _]]; eauto.
Qed.

(** Passing the four filters means: the readings were taken, the volume was
    not low and the price is outside the buffer zone. *)
Lemma filters_Next (self : SafeStrategy) (data : Data) (r : Readings) :
  filters self data = Next r <->
  read_snapshot self data = Next r /\
  low_volume self r = Next false /\
  within_buffer self r = false.
Proof.
  unfold filters, before_buffer, volume_filter, buffer_filter. unfold_flow.
  split.
  - intros H.
    destruct (read_snapshot self data) as [r0 | d0 | e]; try discriminate H.
    destruct (low_volume self r0) as [[ | ] | d0 | e] eqn:Hlow;
      try discriminate H.
    destruct (within_buffer self r0) eqn:Hbuf; try discriminate H.
    injection H as <-. auto.
  - intros (-> & -> & ->). reflexivity.
Qed.

(** Reaching the buffer zone filter means: the readings were taken and the
    volume was not low. *)
Lemma before_buffer_Next (self : SafeStrategy) (data : Data) (r : Readings) :
  before_buffer self data = Next r <->
  read_snapshot self data = Next r /\ low_volume self r = Next false.
Proof.
  unfold before_buffer, volume_filter. unfold_flow. split.
  - intros H.
    destruct (read_snapshot self data) as [r0 | d0 | e]; try discriminate H.
    destruct (low_volume self r0) as [[ | ] | d0 | e] eqn:Hlow;
      try discriminate H.
    injection H as <-. auto.
  - intros (-> & ->). reflexivity.
Qed.

(** *** The tightened stop *)

(** What [trade] returns: a buy or a sell with both offsets, the stop
    tightened against the previous close when the latch is set as the call
    ends. *)
Lemma trade_Returns (self self' : SafeStrategy) (r : Readings) (d : Decision) :
  trade self r = (Returns d, self') ->
  action d = fst (direction self r) /\
  tp_offset d = Some (r_atr r * target_mult self)%float /\
  if trailing_activated self' then
    exists prev_close,
      iloc (r_close r) (-2) = Some prev_close /\
      sl_offset d =
        Some (tighten (action d) (r_atr r * stop_mult self)%float (r_price r)
                      prev_close (r_atr r * 0.1)%float)
  else sl_offset d = Some (r_atr r * stop_mult self)%float.
Proof.
  unfold trade. destruct (direction self r) as [act c]. simpl fst.
  destruct (activates self r act).
  - simpl. destruct (iloc (r_close r) (-2)) as [pc | ]; [ | discriminate].
    intros H. injection H as <- <-. simpl. eauto.
  - destruct (trailing_activated self) eqn:Hon.
    + destruct (iloc (r_close r) (-2)) as [pc | ]; [ | discriminate].
      intros H. injection H as <- <-. rewrite Hon. simpl. eauto.
    + intros H. injection H as <- <-. rewrite Hon. simpl. auto.
Qed.

(** C3.  When [decide] returns a buy or a sell and the latch is set as the
    call ends (it was set before, or this call set it), the stop offset is
    [min(ATR * stop_mult, price - (prev_close + ATR * 0.1))] for a buy and
    [min(ATR * stop_mult, (prev_close - ATR * 0.1) - price)] for a sell,
    with [prev_close] the close of the second-to-last bar, [price] the last
    close and [ATR] the last value of the ATR series; the target offset is
    [ATR * target_mult]. *)
Theorem tightened_stop (self self' : SafeStrategy) (data : Data)
    (d : Decision) :
  decide self data = (Returns d, self') ->
  action d <> hold ->
  trailing_activated self' = true ->
  exists df atr_series atr price prev_close,
    ohlc_1m data = Some df /\
    calculate_atr df (atr_period self) = inr atr_series /\
    iloc atr_series (-1) = Some atr /\
    iloc (df_close df) (-1) = Some price /\
    iloc (df_close df) (-2) = Some prev_close /\
    (action d = buy ->
     sl_offset d =
       Some (py_min (atr * stop_mult self)
                    (price - (prev_close + atr * 0.1)))%float) /\
    (action d = sell ->
     sl_offset d =
       Some (py_min (atr * stop_mult self)
                    ((prev_close - atr * 0.1) - price))%float) /\
    tp_offset d = Some (atr * target_mult self)%float.
Proof.
  unfold decide. intros H Hact Hon.
  destruct (filters self data) as [r | d0 | e] eqn:Hf.
  - apply filters_Next in Hf as (Hread & _ & _).
    apply read_snapshot_Next in Hread.
    destruct Hread as
      (df & now & Hdf & _ & _ & _ & Hclose & _ & _ & (ats & Hats & Hatr)
       & Hprice & _).
    apply trade_Returns in H as (_ & Htp & Hsl). rewrite Hon in Hsl.
    destruct Hsl as (pc & Hpc & Hsl). rewrite Hclose in Hpc.
    exists df, ats, (r_atr r), (r_price r), pc.
    repeat split; try assumption.
    + intros Hbuy. rewrite Hsl, Hbuy. reflexivity.
    + intros Hsell. rewrite Hsl, Hsell. reflexivity.
  - injection H as <- <-.
    apply filters_Return in Hf as [reason ->]. now elim Hact.
  - discriminate H.
Qed.

(** *** The buffer zone filter *)

(** After the first three filters, the call holds for the buffer zone
    exactly when line 90's comparison is true. *)
Lemma within_buffer_iff (self : SafeStrategy) (data : Data) (r : Readings) :
  before_buffer self data = Next r ->
  fst (decide self data) = Returns (_hold "within buffer zone") <->
  within_buffer self r = true.
Proof.
  intros H. apply before_buffer_Next in H as [Hread Hlow].
  pose proof (decide_outcome self data) as Hd. rewrite Hread, Hlow in Hd.
  destruct (within_buffer self r).
  - rewrite Hd. simpl. tauto.
  - rewrite Hd. split; [ | discriminate]. intros H.
    destruct (trade self r) as [o s'] eqn:Ht. simpl in H. subst o.
    apply trade_not_hold in Ht. now elim Ht.
Qed.

(** C5.  A call that reaches the buffer zone filter returns the hold with
    reason "within buffer zone" exactly when [|price - EMA| < ATR *
    buffer_mult], the comparison being strict: a price one buffer above the
    EMA ([price - EMA] equal to the buffer) or one buffer below it
    ([EMA - price] equal to the buffer) is not rejected by this filter. *)
Theorem buffer_zone_iff (self : SafeStrategy) (data : Data) (r : Readings) :
  before_buffer self data = Next r ->
  (fst (decide self data) = Returns (_hold "within buffer zone") <->
   (abs (r_price r - r_ema r) <? r_atr r * buffer_mult self)%float = true) /\
  ((r_price r - r_ema r =? r_atr r * buffer_mult self)%float = true \/
   (r_ema r - r_price r =? r_atr r * buffer_mult self)%float = true ->
   fst (decide self data) <> Returns (_hold "within buffer zone")).
Proof.
  intros H. pose proof (within_buffer_iff self data r H) as Hiff.
  unfold within_buffer, buffer in Hiff. split; [exact Hiff | ].
  intros Heq Hhold. apply Hiff in Hhold.
  destruct Heq as [Heq | Heq];
    apply FloatFacts.eqb_true_abs_ltb_false in Heq.
  - congruence.
  - rewrite FloatFacts.abs_sub_comm in Heq. congruence.
Qed.

(** *** The volume spike filter *)

(** After the readings, the call holds for low volume exactly when line
    85's condition is true. *)
Lemma low_volume_iff (self : SafeStrategy) (data : Data) (r : Readings) :
  read_snapshot self data = Next r ->
  fst (decide self data) = Returns (_hold "low volume") <->
  low_volume self r = Next true.
Proof.
  intros Hread.
  pose proof (decide_outcome self data) as Hd. rewrite Hread in Hd.
  destruct (low_volume_cases self data r Hread) as [Hlow | Hlow];
    rewrite Hlow in Hd.
  - rewrite Hd, Hlow. simpl. tauto.
  - rewrite Hlow. split; [ | discriminate]. intros H. exfalso.
    destruct (within_buffer self r).
    + rewrite Hd in H. simpl in H. injection H as H. discriminate H.
    + destruct (trade self r) as [o s'] eqn:Ht. rewrite Hd in H.
      simpl in H. subst o. apply trade_not_hold in Ht. now elim Ht.
Qed.

(** C6.  A call that reaches the volume spike filter returns the hold with
    reason "low volume" exactly when the volume series is non-empty, its
    rolling average is a number other than zero, and the latest volume is
    strictly below [average * volume_mult].  So the filter never rejects
    when the volume series is empty, when the average is missing, undefined
    ([nan]) or zero, or when the latest volume equals
    [average * volume_mult]. *)
Theorem volume_filter_rejects_only_low (self : SafeStrategy) (data : Data)
    (r : Readings) :
  read_snapshot self data = Next r ->
  (fst (decide self data) = Returns (_hold "low volume") <->
   r_vol r <> [] /\
   exists avg latest,
     r_avg_vol r = Some avg /\
     is_nan avg = false /\
     (avg =? 0)%float = false /\
     iloc (r_vol r) (-1) = Some latest /\
     (latest <? avg * volume_mult self)%float = true) /\
  (r_vol r = [] ->
   fst (decide self data) <> Returns (_hold "low volume")) /\
  (r_avg_vol r = None \/
   (exists avg, r_avg_vol r = Some avg /\
                (is_nan avg = true \/ (avg =? 0)%float = true)) ->
   fst (decide self data) <> Returns (_hold "low volume")) /\
  (forall avg latest,
     r_avg_vol r = Some avg ->
     iloc (r_vol r) (-1) = Some latest ->
     (latest =? avg * volume_mult self)%float = true ->
     fst (decide self data) <> Returns (_hold "low volume")).
Proof.
  intros Hread. pose proof (low_volume_iff self data r Hread) as Hiff.
  pose proof (read_snapshot_Next self data r Hread) as
    (df & now & _ & _ & _ & _ & _ & Hvol & _ & _ & _ & Havg).
  rewrite <- Hvol in Havg.
  assert (Hlow :
    low_volume self r = Next true <->
    r_vol r <> [] /\
    exists avg latest,
      r_avg_vol r = Some avg /\
      is_nan avg = false /\
      (avg =? 0)%float = false /\
      iloc (r_vol r) (-1) = Some latest /\
      (latest <? avg * volume_mult self)%float = true).
  { unfold low_volume, float_truthy. unfold_flow.
    destruct (r_avg_vol r) as [avg | ].
    - destruct Havg as [Hne _].
      destruct (iloc_last_Some (r_vol r) Hne) as [v Hv]. rewrite Hv.
      destruct (avg =? 0)%float eqn:Hzero; simpl.
      + split; [discriminate | ].
        intros (_ & avg' & latest & Hsome & _ & Hnz & _).
        injection Hsome as <-. congruence.
      + split.
        * intros H. injection H as H. split; [exact Hne | ].
          exists avg, v. repeat split; try assumption.
          destruct (is_nan avg) eqn:Hnan; [ | reflexivity].
          rewrite (FloatFacts.ltb_nan_mul v avg (volume_mult self) Hnan) in H.
          discriminate H.
        * intros (_ & avg' & latest & Hsome & _ & _ & Hlast & Hlt).
          injection Hsome as <-. injection Hlast as <-. now rewrite Hlt.
    - split; [discriminate | ].
      intros (_ & avg & latest & Hsome & _). discriminate Hsome. }
  rewrite Hlow in Hiff. split; [exact Hiff | ].
  split; [ | split].
  - intros Hempty H. apply Hiff in H as [Hne _]. now elim Hne.
  - intros Hbad H. apply Hiff in H as (_ & avg & latest & Hsome & Hnan & Hnz & _).
    destruct Hbad as [Hnone | (avg' & Hsome' & [Hbad | Hbad])]; congruence.
  - intros avg latest Hsome Hlast Heq H.
    apply Hiff in H as (_ & avg' & latest' & Hsome' & _ & _ & Hlast' & Hlt).
    assert (avg' = avg) by congruence. assert (latest' = latest) by congruence.
    subst. apply FloatFacts.eqb_true_ltb_false in Heq. congruence.
Qed.

(** *** The read of the previous close *)

(** C8.  With [max(ema_period, atr_period) >= 2], a call that passes the
    filters (as any call that reaches the tightening branch has) works on a
    snapshot of at least two bars: the second-to-last close is there, and
    [decide] returns instead of raising. *)
Theorem prev_close_in_range (self : SafeStrategy) (data : Data)
    (r : Readings) :
  2 <= Z.max (ema_period self) (atr_period self) ->
  filters self data = Next r ->
  (exists df, ohlc_1m data = Some df /\ 2 <= df_len df /\
              r_close r = df_close df) /\
  (exists prev_close, iloc (r_close r) (-2) = Some prev_close) /\
  (exists d self', decide self data = (Returns d, self')).
Proof.
  intros Hmax Hf. unfold decide. rewrite Hf.
  apply filters_Next in Hf as (Hread & _ & _).
  apply read_snapshot_Next in Hread.
  destruct Hread as (df & now & Hdf & Hlen & _ & _ & Hclose & _).
  assert (Hpc : exists pc, iloc (r_close r) (-2) = Some pc).
  { apply iloc_prev_Some. rewrite Hclose. unfold df_close.
    rewrite length_map. unfold df_len in Hlen. lia. }
  split; [exists df; repeat split; [exact Hdf | lia | exact Hclose] | ].
  split; [exact Hpc | ].
  destruct Hpc as [pc Hpc]. unfold trade.
  destruct (direction self r) as [act c].
  destruct (activates self r act); simpl.
  - rewrite Hpc. eauto.
  - destruct (trailing_activated self); [rewrite Hpc | ]; eauto.
Qed.

(** *** The buy scenario *)

Lemma append_assoc (a b c : string) : (a ++ b) ++ c = a ++ (b ++ c).
Proof. induction a as [ | x a IH]; simpl; [reflexivity | now rewrite IH]. Qed.

Lemma append_nil_r (a : string) : a ++ "" = a.
Proof. induction a as [ | x a IH]; simpl; [reflexivity | now rewrite IH]. Qed.

(** A string that ends with [sub] contains it. *)
Lemma contains_suffix (pre sub : string) : contains (pre ++ sub) sub.
Proof. exists pre, "". now rewrite append_nil_r. Qed.

(** C10, as the code has it.  With the latch unset, [stop_mult] 1.0,
    [target_mult] 0.5 and [buffer_mult] 0.2, a call that reaches the buffer
    zone filter with EMA 100, ATR 2 and price 101 on a snapshot whose
    second-to-last close is [prev_close] returns a buy with target offset
    1.0, arms the latch and says so in its comment; the stop offset is the
    tightened one, [min(2.0, 101 - (prev_close + 0.2))]. *)
Theorem scenario_buy_arms_trailing (self : SafeStrategy) (data : Data)
    (r : Readings) (prev_close : float) :
  trailing_activated self = false ->
  stop_mult self = 1%float ->
  target_mult self = 0.5%float ->
  buffer_mult self = 0.2%float ->
  before_buffer self data = Next r ->
  r_ema r = 100%float ->
  r_atr r = 2%float ->
  r_price r = 101%float ->
  iloc (r_close r) (-2) = Some prev_close ->
  exists c,
    decide self data =
      (Returns {| action := buy;
                  comment := c;
                  sl_offset := Some (py_min 2 (101 - (prev_close + 0.2)))%float;
                  tp_offset := Some 1%float |},
       set_trailing_activated self true) /\
    contains c "trailing stop activated".
Proof.
  intros Hoff Hstop Htarget Hbuf Hreach Hema Hatr Hprice Hprev.
  apply before_buffer_Next in Hreach as [Hread Hlow].
  pose proof (decide_outcome self data) as Hd. rewrite Hread, Hlow in Hd.
  unfold within_buffer, buffer in Hd. rewrite Hema, Hatr, Hprice, Hbuf in Hd.
  change (abs (101 - 100) <? 2 * 0.2)%float with false in Hd.
  rewrite Hd. unfold trade, direction, activates, buffer.
  rewrite Hema, Hatr, Hprice, Hbuf, Hstop, Htarget, Hoff.
  change (float_gtb 101 100) with true. cbv iota.
  change (float_gtb 101 (100 + 2 * (2 * 0.2))) with true.
  cbv beta iota. simpl negb. simpl andb. cbv iota.
  simpl trailing_activated. cbv iota. rewrite Hprev. unfold tighten.
  change (2 * 1)%float with 2%float.
  change (2 * 0.1)%float with 0.2%float.
  change (2 * 0.5)%float with 1%float.
  eexists. split; [reflexivity | ].
  rewrite <- !append_assoc.
  change "; trailing stop activated" with ("; " ++ "trailing stop activated").
  rewrite <- !append_assoc. apply contains_suffix.
Qed.

End Properties.

End SafeProps.

(** ** Every strategy *)

Lemma hold_without_offsets (c : string) :
  offsets_follow_action
    {| action := hold; comment := c; sl_offset := None; tp_offset := None |}.
Proof.
  split; simpl.
  - tauto.
  - split.
    + intros [H | H]; discriminate H.
    + intros (sl & tp & H & _). discriminate H.
Qed.

Lemma trade_with_offsets (a : Action) (c : string) (sl tp : float) :
  a <> hold ->
  offsets_follow_action
    {| action := a; comment := c; sl_offset := Some sl; tp_offset := Some tp |}.
Proof.
  intros Ha. split; simpl.
  - split.
    + intros H. now elim Ha.
    + intros [H _]. discriminate H.
  - split.
    + eauto.
    + intros _. destruct a; auto. now elim Ha.
Qed.

Section Family.

Context {indicators : Indicators} {pandas : Rolling}.

Lemma latest_readings_Return (name : string) (ema_period atr_period : Z)
    (data : Data) (d : Decision) :
  latest_readings name ema_period atr_period data = Return_ d ->
  offsets_follow_action d.
Proof.
  unfold latest_readings. SafeProps.unfold_flow. intros H.
  repeat SafeProps.break_hyp H; injection H as <-;
    apply hold_without_offsets.
Qed.

(** Unfolds a stateless [decide] down to its readings and comparisons. *)
Ltac stateless_cases H :=
  unfold run_flow in H; SafeProps.unfold_flow_in H;
  repeat SafeProps.break_hyp H;
  repeat match goal with
         | E : (_, _) = (_, _) |- _ => injection E as <- <-
         | E : Next _ = Next _ |- _ => injection E as <-
         | E : Return_ _ = Return_ _ |- _ => injection E as <-
         end.

Lemma Moderate_offsets (self : Moderate.ModerateStrategy) (data : Data)
    (d : Decision) :
  Moderate.decide self data = Returns d -> offsets_follow_action d.
Proof.
  unfold Moderate.decide. intros H.
  destruct (latest_readings Moderate.NAME (Moderate.ema_period self)
              (Moderate.atr_period self) data)
    as [[[ema atr] price] | d0 | e] eqn:Hr.
  - stateless_cases H; injection H as <-;
      first [ apply hold_without_offsets
            | apply trade_with_offsets; discriminate ].
  - simpl in H. injection H as <-. now apply latest_readings_Return in Hr.
  - discriminate H.
Qed.

Lemma Aggressive_offsets (self : Aggressive.AggressiveStrategy) (data : Data)
    (d : Decision) :
  Aggressive.decide self data = Returns d -> offsets_follow_action d.
Proof.
  unfold Aggressive.decide. intros H.
  destruct (latest_readings Aggressive.NAME (Aggressive.ema_period self)
              (Aggressive.atr_period self) data)
    as [[[ema atr] price] | d0 | e] eqn:Hr.
  - stateless_cases H; injection H as <-;
      first [ apply hold_without_offsets
            | apply trade_with_offsets; discriminate ].
  - simpl in H. injection H as <-. now apply latest_readings_Return in Hr.
  - discriminate H.
Qed.

Lemma Momentum_offsets (self : Momentum.MomentumStrategy) (data : Data)
    (d : Decision) :
  Momentum.decide self data = Returns d -> offsets_follow_action d.
Proof.
  unfold Momentum.decide. intros H.
  destruct (latest_readings Momentum.NAME (Momentum.ema_period self)
              (Momentum.atr_period self) data)
    as [[[ema atr] price] | d0 | e] eqn:Hr.
  - stateless_cases H; injection H as <-;
      first [ apply hold_without_offsets
            | apply trade_with_offsets; discriminate ].
  - simpl in H. injection H as <-. now apply latest_readings_Return in Hr.
  - discriminate H.
Qed.

Lemma MeanReversion_offsets (self : MeanReversion.MeanReversionStrategy)
    (data : Data) (d : Decision) :
  MeanReversion.decide self data = Returns d -> offsets_follow_action d.
Proof.
  unfold MeanReversion.decide. intros H.
  destruct (latest_readings MeanReversion.NAME (MeanReversion.ema_period self)
              (MeanReversion.atr_period self) data)
    as [[[ema atr] price] | d0 | e] eqn:Hr.
  - stateless_cases H; injection H as <-;
      first [ apply hold_without_offsets
            | apply trade_with_offsets; discriminate ].
  - simpl in H. injection H as <-. now apply latest_readings_Return in Hr.
  - discriminate H.
Qed.

Lemma Safe_offsets (self self' : Safe.SafeStrategy) (data : Data)
    (d : Decision) :
  Safe.decide self data = (Returns d, self') -> offsets_follow_action d.
Proof.
  unfold Safe.decide. intros H.
  destruct (Safe.filters self data) as [r | d0 | e] eqn:Hf.
  - pose proof (SafeProps.trade_not_hold _ _ _ _ H) as Hact.
    apply SafeProps.trade_Returns in H as (_ & Htp & Hsl).
    destruct d as [a c sl tp]. simpl in *. subst tp.
    destruct (Safe.trailing_activated self').
    + destruct Hsl as (pc & _ & ->). now apply trade_with_offsets.
    + subst sl. now apply trade_with_offsets.
  - injection H as <- <-.
    apply SafeProps.filters_Return in Hf as [reason ->].
    apply hold_without_offsets.
  - discriminate H.
Qed.

(** C1.  Whatever the strategy and the input, a decision that [decide]
    returns is a hold exactly when both offsets are null, and a buy or a
    sell exactly when both offsets are floats. *)
Theorem offsets_iff_trade (strategy : Strategy) (data : Data) (d : Decision) :
  Strategy_decide strategy data = Returns d ->
  (action d = hold <-> sl_offset d = None /\ tp_offset d = None) /\
  (action d = buy \/ action d = sell <->
   exists sl tp, sl_offset d = Some sl /\ tp_offset d = Some tp).
Proof.
  destruct strategy as [s | s | s | s | s]; simpl; intros H.
  - destruct (Safe.decide s data) as [o s'] eqn:Hd. simpl in H. subst o.
    exact (Safe_offsets s s' data d Hd).
  - exact (Moderate_offsets s data d H).
  - exact (Aggressive_offsets s data d H).
  - exact (Momentum_offsets s data d H).
  - exact (MeanReversion_offsets s data d H).
Qed.

End Family.

(** ** Runs on the sample snapshots

    [decide] evaluated with the reference collaborators; each general
    statement above is applied once to such a run. *)

Module Runs.

Import Safe.

(** The scenario's readings: EMA 100, ATR 2, price 101. *)
Example rising_run :
  @before_buffer ref_indicators ref_rolling safe_3_1 rising_data
    = Next rising_readings /\
  decide_ref safe_3_1 rising_data
    = (Returns rising_decision, set_trailing_activated safe_3_1 true).
Proof. split; vm_compute; reflexivity. Qed.

(** The strictness of the buffer zone is a statement about the distance
    the code computes.  A price obtained by adding the buffer to the EMA in
    binary64 can round to a float closer to the EMA than the buffer: with
    EMA 0.7 and buffer 0.5 * 0.2, the float sum [0.7 + 0.1] is
    0.7999999999999999, and line 90 finds it inside the zone. *)
Example rounded_sum_inside_buffer :
  within_buffer safe_3_1
    {| r_close := []; r_vol := []; r_ema := 0.7; r_atr := 0.5;
       r_price := (0.7 + 0.5 * 0.2)%float; r_avg_vol := None |} = true.
Proof. vm_compute. reflexivity. Qed.

(** With both periods at 1 and the latch already set, a one-bar snapshot
    passes the startup check and the read of the previous close raises. *)
Example one_bar_raises :
  decide_ref (set_trailing_activated safe_1_1 true) one_bar_data
    = (Raises IndexError, set_trailing_activated safe_1_1 true).
Proof. vm_compute. reflexivity. Qed.

Lemma offsets_iff_trade_witness :
  @Strategy_decide ref_indicators ref_rolling (Safe_ safe_3_1) rising_data
    = Returns rising_decision /\
  (action rising_decision = hold <->
   sl_offset rising_decision = None /\ tp_offset rising_decision = None) /\
  (action rising_decision = buy \/ action rising_decision = sell <->
   exists sl tp, sl_offset rising_decision = Some sl /\
                 tp_offset rising_decision = Some tp).
Proof.
  split.
  - vm_compute. reflexivity.
  - apply (@offsets_iff_trade ref_indicators ref_rolling (Safe_ safe_3_1)
             rising_data).
    vm_compute. reflexivity.
Defined.

Lemma trailing_latch_witness :
  trailing_activated
    (@after_calls ref_indicators ref_rolling safe_3_1 [rising_data]) = true /\
  trailing_activated
    (@after_calls ref_indicators ref_rolling safe_3_1
       ([rising_data] ++ [falling_data; no_data; short_data])) = true.
Proof.
  split.
  - vm_compute. reflexivity.
  - apply (proj2 (@SafeProps.trailing_latch ref_indicators ref_rolling)).
    vm_compute. reflexivity.
Defined.

Lemma tightened_stop_witness :
  decide_ref safe_3_1 rising_data
    = (Returns rising_decision, set_trailing_activated safe_3_1 true) /\
  exists df atr_series atr price prev_close,
    ohlc_1m rising_data = Some df /\
    ref_calculate_atr df (atr_period safe_3_1) = inr atr_series /\
    iloc atr_series (-1) = Some atr /\
    iloc (df_close df) (-1) = Some price /\
    iloc (df_close df) (-2) = Some prev_close /\
    (action rising_decision = buy ->
     sl_offset rising_decision =
       Some (py_min (atr * stop_mult safe_3_1)
                    (price - (prev_close + atr * 0.1)))%float) /\
    (action rising_decision = sell ->
     sl_offset rising_decision =
       Some (py_min (atr * stop_mult safe_3_1)
                    ((prev_close - atr * 0.1) - price))%float) /\
    tp_offset rising_decision = Some (atr * target_mult safe_3_1)%float.
Proof.
  split.
  - vm_compute. reflexivity.
  - apply (@SafeProps.tightened_stop ref_indicators ref_rolling safe_3_1
             (set_trailing_activated safe_3_1 true) rising_data
             rising_decision).
    + vm_compute. reflexivity.
    + discriminate.
    + reflexivity.
Defined.

Lemma insufficient_data_iff_witness :
  df_len rising_frame = Z.max (ema_period safe_3_1) (atr_period safe_3_1) /\
  fst (decide_ref safe_3_1 rising_data)
    <> Returns (_hold "insufficient data") /\
  df_len short_frame
    = Z.max (ema_period safe_3_1) (atr_period safe_3_1) - 1 /\
  fst (decide_ref safe_3_1 short_data) = Returns (_hold "insufficient data").
Proof.
  split; [reflexivity | split; [ | split; [reflexivity | ]]].
  - apply (proj1 (proj2 (@SafeProps.insufficient_data_iff ref_indicators
                           ref_rolling safe_3_1 rising_data)) rising_frame);
      reflexivity.
  - apply (proj2 (proj2 (@SafeProps.insufficient_data_iff ref_indicators
                           ref_rolling safe_3_1 short_data)) short_frame);
      reflexivity.
Defined.

Lemma buffer_zone_iff_witness :
  @before_buffer ref_indicators ref_rolling safe_3_1 boundary_data
    = Next boundary_readings /\
  (r_price boundary_readings - r_ema boundary_readings
   =? r_atr boundary_readings * buffer_mult safe_3_1)%float = true /\
  fst (decide_ref safe_3_1 boundary_data)
    <> Returns (_hold "within buffer zone").
Proof.
  split; [vm_compute; reflexivity | split; [vm_compute; reflexivity | ]].
  apply (proj2 (@SafeProps.buffer_zone_iff ref_indicators ref_rolling
                  safe_3_1 boundary_data boundary_readings
                  ltac:(vm_compute; reflexivity))).
  left. vm_compute. reflexivity.
Defined.

Lemma volume_filter_rejects_only_low_witness :
  @read_snapshot ref_indicators ref_rolling safe_3_2 volume_data
    = Next volume_readings /\
  (300 =? 200 * volume_mult safe_3_2)%float = true /\
  fst (decide_ref safe_3_2 volume_data) <> Returns (_hold "low volume").
Proof.
  split; [vm_compute; reflexivity | split; [vm_compute; reflexivity | ]].
  apply (proj2 (proj2 (proj2
           (@SafeProps.volume_filter_rejects_only_low ref_indicators
              ref_rolling safe_3_2 volume_data volume_readings
              ltac:(vm_compute; reflexivity)))) 200%float 300%float);
    vm_compute; reflexivity.
Defined.

Lemma hold_leaves_instance_unchanged_witness :
  decide_ref (set_trailing_activated safe_3_1 true) short_data
    = (Returns (_hold "insufficient data"),
       set_trailing_activated safe_3_1 true) /\
  (forall d,
     Returns (_hold "insufficient data") = Returns d ->
     action d = hold ->
     set_trailing_activated safe_3_1 true
       = set_trailing_activated safe_3_1 true).
Proof.
  split.
  - vm_compute. reflexivity.
  - apply (proj1 (@SafeProps.hold_leaves_instance_unchanged ref_indicators
                    ref_rolling (set_trailing_activated safe_3_1 true)
                    (set_trailing_activated safe_3_1 true) short_data
                    (Returns (_hold "insufficient data"))
                    ltac:(vm_compute; reflexivity))).
Defined.

Lemma prev_close_in_range_witness :
  2 <= Z.max (ema_period safe_3_1) (atr_period safe_3_1) /\
  @filters ref_indicators ref_rolling safe_3_1 rising_data
    = Next rising_readings /\
  (exists prev_close, iloc (r_close rising_readings) (-2) = Some prev_close) /\
  (exists d self', decide_ref safe_3_1 rising_data = (Returns d, self')).
Proof.
  split; [vm_compute; discriminate | ].
  split; [vm_compute; reflexivity | ].
  apply (@SafeProps.prev_close_in_range ref_indicators ref_rolling safe_3_1
           rising_data rising_readings).
  - vm_compute. discriminate.
  - vm_compute. reflexivity.
Defined.

(** C9.  A fresh instance with EMA period 3 and ATR period 1, called on a
    snapshot whose last close (101) is above the EMA (100) by more than two
    buffers but below the close before it (102), returns a buy whose stop
    offset, [101 - (102 + 0.2)], is negative; the decision is returned as
    it is, neither turned into a hold nor into an exception. *)
Theorem negative_stop_returned :
  exists sl : float,
    @decide ref_indicators ref_rolling safe_3_1 pullback_data =
      (Returns {| action := buy;
                  comment := "Safe (Low-Risk) Trend-Following Scalper: price 101.00000 above EMA3 + buffer; trailing stop activated";
                  sl_offset := Some sl;
                  tp_offset := Some 1%float |},
       set_trailing_activated safe_3_1 true) /\
    (sl <? 0)%float = true.
Proof.
  exists (101 - (102 + 0.2))%float. split; vm_compute; reflexivity.
Qed.

(** The scenario of C10 as stated, run on [rising_data]: every premise
    holds (latch unset, multipliers 1.0, 0.5 and 0.2, the first three
    filters passed, EMA 100, ATR 2, price 101), the call returns a buy, and
    its stop offset is not 2.0: the latch armed by this very call tightens
    the stop against the previous close of 100. *)
Lemma scenario_stop_is_tightened :
  trailing_activated safe_3_1 = false /\
  stop_mult safe_3_1 = 1%float /\
  target_mult safe_3_1 = 0.5%float /\
  buffer_mult safe_3_1 = 0.2%float /\
  @before_buffer ref_indicators ref_rolling safe_3_1 rising_data
    = Next rising_readings /\
  r_ema rising_readings = 100%float /\
  r_atr rising_readings = 2%float /\
  r_price rising_readings = 101%float /\
  exists d self',
    @decide ref_indicators ref_rolling safe_3_1 rising_data
      = (Returns d, self') /\
    action d = buy /\
    sl_offset d <> Some 2%float.
Proof.
  repeat (split; [vm_compute; reflexivity | ]).
  exists rising_decision, (set_trailing_activated safe_3_1 true).
  split; [vm_compute; reflexivity | split; [reflexivity | ]].
  simpl. intros H.
  apply (f_equal (fun o => match o with
                           | Some x => (x =? 2)%float
                           | None => true
                           end)) in H.
  vm_compute in H. discriminate H.
Qed.

Lemma scenario_buy_arms_trailing_witness :
  exists c,
    @decide ref_indicators ref_rolling safe_3_1 rising_data =
      (Returns {| action := buy;
                  comment := c;
                  sl_offset := Some (py_min 2 (101 - (100 + 0.2)))%float;
                  tp_offset := Some 1%float |},
       set_trailing_activated safe_3_1 true) /\
    contains c "trailing stop activated".
Proof.
  apply (@SafeProps.scenario_buy_arms_trailing ref_indicators ref_rolling
           safe_3_1 rising_data rising_readings 100%float);
    vm_compute; reflexivity.
Defined.

End Runs.

(** ** More facts about binary64 comparisons *)

Module FloatOrder.

Local Open Scope float_scope.

(** The specification's [nan] is the one the comparison-based test finds. *)
Lemma Prim2SF_is_nan (x : float) :
  Prim2SF x = S754_nan <-> is_nan x = true.
Proof.
  split; [ | apply FloatFacts.is_nan_Prim2SF].
  intros H. unfold is_nan. rewrite eqb_spec, H. reflexivity.
Qed.

(** [nan] is below nothing and nothing is below it. *)
Lemma ltb_nan_l (x y : float) : is_nan x = true -> (x <? y) = false.
Proof.
  intros H. apply Prim2SF_is_nan in H. rewrite ltb_spec, H. reflexivity.
Qed.

Lemma ltb_nan_r (x y : float) : is_nan y = true -> (x <? y) = false.
Proof.
  intros H. apply Prim2SF_is_nan in H. rewrite ltb_spec, H.
  unfold SFltb. destruct (Prim2SF x); reflexivity.
Qed.

(** [nan] propagates through the arithmetic [decide] does. *)
Lemma sub_nan_l (x y : float) : is_nan x = true -> is_nan (x - y) = true.
Proof.
  intros H. apply Prim2SF_is_nan in H. apply Prim2SF_is_nan.
  rewrite sub_spec, H. reflexivity.
Qed.

Lemma sub_nan_r (x y : float) : is_nan y = true -> is_nan (x - y) = true.
Proof.
  intros H. apply Prim2SF_is_nan in H. apply Prim2SF_is_nan.
  rewrite sub_spec, H. unfold SF64sub, SFsub.
  destruct (Prim2SF x); reflexivity.
Qed.

Lemma add_nan_l (x y : float) : is_nan x = true -> is_nan (x + y) = true.
Proof.
  intros H. apply Prim2SF_is_nan in H. apply Prim2SF_is_nan.
  rewrite add_spec, H. reflexivity.
Qed.

Lemma mul_nan_l (x y : float) : is_nan x = true -> is_nan (x * y) = true.
Proof.
  intros H. apply Prim2SF_is_nan in H. apply Prim2SF_is_nan.
  rewrite mul_spec, H. reflexivity.
Qed.

Lemma mul_nan_r (x y : float) : is_nan y = true -> is_nan (x * y) = true.
Proof.
  intros H. apply Prim2SF_is_nan in H. apply Prim2SF_is_nan.
  rewrite mul_spec, H. unfold SF64mul, SFmul.
  destruct (Prim2SF x); reflexivity.
Qed.

Lemma opp_nan (x : float) : is_nan x = true -> is_nan (- x) = true.
Proof.
  intros H. apply Prim2SF_is_nan in H. apply Prim2SF_is_nan.
  rewrite opp_spec, H. reflexivity.
Qed.

Lemma abs_nan (x : float) : is_nan x = true -> is_nan (abs x) = true.
Proof.
  intros H. apply Prim2SF_is_nan in H. apply Prim2SF_is_nan.
  rewrite abs_spec, H. reflexivity.
Qed.

(** The order of the specification is asymmetric. *)
Lemma SFcompare_Lt_not_Lt (a b : spec_float) :
  SFcompare a b = Some Lt -> SFcompare b a <> Some Lt.
Proof.
  destruct a as [[ | ] | [ | ] | | [ | ] m1 e1];
    destruct b as [[ | ] | [ | ] | | [ | ] m2 e2];
    simpl; try discriminate;
    rewrite (Z.compare_antisym e1 e2);
    destruct (e1 ?= e2)%Z; simpl; try discriminate;
    change (Pos.compare_cont Eq m2 m1)
      with (Pos.compare_cont (CompOpp Eq) m2 m1);
    rewrite <- (Pos.compare_cont_antisym m1 m2 Eq);
    destruct (Pos.compare_cont Eq m1 m2); simpl; discriminate.
Qed.

Lemma ltb_asym (x y : float) : (x <? y) = true -> (y <? x) = false.
Proof.
  rewrite !ltb_spec. unfold SFltb.
  destruct (SFcompare (Prim2SF x) (Prim2SF y)) as [[ | | ] | ] eqn:C;
    try discriminate.
  intros _. apply SFcompare_Lt_not_Lt in C.
  destruct (SFcompare (Prim2SF y) (Prim2SF x)) as [[ | | ] | ];
    try reflexivity. now elim C.
Qed.

(** The minimum of two floats is never above the first. *)
Lemma py_min_not_above (a b : float) : (a <? py_min a b) = false.
Proof.
  unfold py_min. destruct (b <? a) eqn:E.
  - now apply ltb_asym.
  - apply FloatFacts.ltb_irrefl.
Qed.

(** An absolute value is never below a float that is zero or less. *)
Lemma abs_not_below_nonpositive (x b : float) :
  (b <=? 0) = true -> (abs x <? b) = false.
Proof.
  rewrite leb_spec, ltb_spec, abs_spec. unfold SFleb, SFltb.
  change (Prim2SF 0) with (S754_zero false).
  destruct (Prim2SF x) as [[ | ] | [ | ] | | [ | ] m1 e1];
    destruct (Prim2SF b) as [[ | ] | [ | ] | | [ | ] m2 e2];
    simpl; try reflexivity; discriminate.
Qed.

End FloatOrder.

(** ** SafeStrategy: session window, edge inputs and the latch *)

Module SafeEdges.

Import Safe.

(** *** The session window *)

Lemma time_leb_refl (t : time) : time_leb t t = true.
Proof.
  unfold time_leb. rewrite !N.compare_refl. apply N.leb_refl.
Qed.

Lemma time_leb_trans (a b c : time) :
  time_leb a b = true -> time_leb b c = true -> time_leb a c = true.
Proof.
  destruct a as [h1 m1 s1 u1], b as [h2 m2 s2 u2], c as [h3 m3 s3 u3].
  unfold time_leb. simpl.
  destruct (N.compare_spec h1 h2); try discriminate;
    destruct (N.compare_spec h2 h3); try discriminate;
    destruct (N.compare_spec h1 h3); try reflexivity; try lia;
    destruct (N.compare_spec m1 m2); try discriminate;
    destruct (N.compare_spec m2 m3); try discriminate;
    destruct (N.compare_spec m1 m3); try reflexivity; try lia;
    destruct (N.compare_spec s1 s2); try discriminate;
    destruct (N.compare_spec s2 s3); try discriminate;
    destruct (N.compare_spec s1 s3); try reflexivity; try lia;
    rewrite !N.leb_le; lia.
Qed.

(** A timestamp can only be in session when the window is in order. *)
Lemma in_session_window_ordered (self : SafeStrategy) (ts : Timestamp) :
  in_session self ts = true ->
  time_leb (session_start self) (session_end self) = true.
Proof.
  unfold in_session. intros H. apply andb_prop in H as [H1 H2].
  exact (time_leb_trans _ _ _ H1 H2).
Qed.

(** X1.  Both ends of the session window are in session when the window
    is in order ([session_start <= session_end]); when it is not, as for a
    window running over midnight, no timestamp is in session. *)
Theorem in_session_bounds (self : SafeStrategy) (ts : Timestamp) :
  (time_leb (session_start self) (session_end self) = true ->
   ts_time ts = session_start self \/ ts_time ts = session_end self ->
   in_session self ts = true) /\
  (time_leb (session_start self) (session_end self) = false ->
   in_session self ts = false).
Proof.
  split.
  - intros Hwin [Ht | Ht]; unfold in_session; rewrite Ht, Hwin;
      rewrite time_leb_refl; reflexivity.
  - intros Hwin. destruct (in_session self ts) eqn:E; [ | reflexivity].
    apply in_session_window_ordered in E. congruence.
Qed.

Section Edges.

Context {indicators : Indicators} {pandas : Rolling}.

(** A snapshot long enough whose last bar is out of session is held for
    that. *)
Lemma read_snapshot_outside (self : SafeStrategy) (data : Data) :
  (exists df now,
     ohlc_1m data = Some df /\
     Z.max (ema_period self) (atr_period self) <= df_len df /\
     iloc (df_index df) (-1) = Some now /\
     in_session self now = false) ->
  read_snapshot self data = Return_ (_hold "outside trading session").
Proof.
  intros (df & now & Hdf & Hlen & Hnow & Hout).
  unfold read_snapshot. SafeProps.unfold_flow. rewrite Hdf.
  apply Z.ltb_ge in Hlen. rewrite Hlen, Hnow, Hout. reflexivity.
Qed.

(** A hold that [decide] returns is the one lines 66-82 return, or one of
    the two later ones. *)
Lemma decide_hold_reason (self : SafeStrategy) (data : Data) (reason : string) :
  fst (decide self data) = Returns (_hold reason) ->
  read_snapshot self data = Return_ (_hold reason) \/
  reason = "low volume" \/ reason = "within buffer zone".
Proof.
  intros H. pose proof (SafeProps.decide_outcome self data) as Hd.
  destruct (read_snapshot self data) as [r | d | e] eqn:Hread.
  - destruct (SafeProps.low_volume_cases self data r Hread) as [Hlow | Hlow];
      rewrite Hlow in Hd.
    + rewrite Hd in H. simpl in H. injection H as H. auto.
    + destruct (within_buffer self r).
      * rewrite Hd in H. simpl in H. injection H as H. auto.
      * destruct (trade self r) as [o s'] eqn:Htrade.
        rewrite Hd in H. simpl in H. subst o.
        apply SafeProps.trade_not_hold in Htrade. now elim Htrade.
  - rewrite Hd in H. simpl in H. injection H as ->. now left.
  - rewrite Hd in H. discriminate H.
Qed.

(** X2.  [decide] returns the hold with reason "outside trading session"
    exactly when the snapshot has at least [max(ema_period, atr_period)]
    bars and the timestamp of its last bar is not in session. *)
Theorem outside_session_iff (self : SafeStrategy) (data : Data) :
  fst (decide self data) = Returns (_hold "outside trading session") <->
  exists df now,
    ohlc_1m data = Some df /\
    Z.max (ema_period self) (atr_period self) <= df_len df /\
    iloc (df_index df) (-1) = Some now /\
    in_session self now = false.
Proof.
  split.
  - intros H. apply decide_hold_reason in H as [H | [H | H]];
      try discriminate H.
    apply SafeProps.read_snapshot_Return in H as [[Hins _] | [_ Hout]];
      [ | exact Hout].
    apply SafeProps.hold_reason_inj in Hins. discriminate Hins.
  - intros H. apply read_snapshot_outside in H.
    pose proof (SafeProps.decide_outcome self data) as Hd.
    rewrite H in Hd. now rewrite Hd.
Qed.

(** X3.  With a session window that is out of order
    ([session_start > session_end], a window over midnight), no call ever
    passes the session filter: whatever [decide] returns is a hold, and the
    instance is left unchanged. *)
Theorem overnight_window_never_trades (self self' : SafeStrategy)
    (data : Data) (o : Outcome) :
  time_leb (session_start self) (session_end self) = false ->
  decide self data = (o, self') ->
  self' = self /\ forall d, o = Returns d -> action d = hold.
Proof.
  intros Hwin. unfold decide.
  destruct (filters self data) as [r | d0 | e] eqn:Hf.
  - exfalso. apply SafeProps.filters_Next in Hf as (Hread & _ & _).
    apply SafeProps.read_snapshot_Next in Hread.
    destruct Hread as (df & now & _ & _ & _ & Hin & _).
    apply in_session_window_ordered in Hin. congruence.
  - intros H. injection H as <- <-. split; [reflexivity | ].
    intros d Hd. injection Hd as <-.
    apply SafeProps.filters_Return in Hf as [reason ->]. reflexivity.
  - intros H. injection H as <- <-. split; [reflexivity | ].
    intros d Hd. discriminate Hd.
Qed.

(** *** Empty snapshots *)

(** X4.  On a snapshot without rows, [decide] returns the insufficient-data
    hold when a period is positive; when both periods are zero or less the
    startup check lets the empty frame through and the read of its last
    timestamp raises [IndexError].  Either way the instance is unchanged. *)
Theorem empty_snapshot (self : SafeStrategy) (data : Data) (df : DataFrame) :
  ohlc_1m data = Some df ->
  df_bars df = [] ->
  (0 < Z.max (ema_period self) (atr_period self) ->
   decide self data = (Returns (_hold "insufficient data"), self)) /\
  (Z.max (ema_period self) (atr_period self) <= 0 ->
   decide self data = (Raises IndexError, self)).
Proof.
  intros Hdf Hbars.
  pose proof (SafeProps.decide_outcome self data) as Hd.
  assert (Hlen : df_len df = 0) by (unfold df_len; now rewrite Hbars).
  split; intros Hmax.
  - rewrite SafeProps.read_snapshot_insufficient in Hd; [exact Hd | ].
    right. exists df. split; [exact Hdf | lia].
  - unfold read_snapshot in Hd. SafeProps.unfold_flow_in Hd.
    rewrite Hdf in Hd.
    assert (E : (df_len df <? Z.max (ema_period self) (atr_period self))
                = false) by (apply Z.ltb_ge; lia).
    rewrite E in Hd. unfold df_index in Hd. rewrite Hbars in Hd.
    exact Hd.
Qed.

End Edges.

End SafeEdges.

(** ** SafeStrategy: what the latch does and does not change *)

Module SafeLatch.

Import Safe.

Section Latch.

Context {indicators : Indicators} {pandas : Rolling}.

(** The filters read the configuration only. *)
Lemma filters_ignore_latch (self : SafeStrategy) (b : bool) (data : Data) :
  filters (set_trailing_activated self b) data = filters self data.
Proof. reflexivity. Qed.

Lemma direction_ignores_latch (self : SafeStrategy) (b : bool) (r : Readings) :
  direction (set_trailing_activated self b) r = direction self r.
Proof. reflexivity. Qed.

(** The instance [trade] leaves: armed when line 106's condition holds,
    untouched otherwise. *)
Lemma trade_snd (self : SafeStrategy) (r : Readings) :
  snd (trade self r) =
    if activates self r (fst (direction self r))
    then set_trailing_activated self true
    else self.
Proof.
  unfold trade. destruct (direction self r) as [act c]. simpl fst.
  destruct (activates self r act); simpl.
  - destruct (iloc (r_close r) (-2)); reflexivity.
  - destruct (trailing_activated self); [ | reflexivity].
    destruct (iloc (r_close r) (-2)); reflexivity.
Qed.

(** The signal of [trade]: the action of [direction], the target offset,
    and the stop offset, which depends on the latch as the call ends. *)
Lemma trade_fst (self : SafeStrategy) (r : Readings) :
  let act := fst (direction self r) in
  let sl := (r_atr r * stop_mult self)%float in
  let tp := (r_atr r * target_mult self)%float in
  if (trailing_activated self || activates self r act)%bool then
    match iloc (r_close r) (-2) with
    | None => fst (trade self r) = Raises IndexError
    | Some prev_close =>
      exists c,
        fst (trade self r) =
          Returns {| action := act; comment := c;
                     sl_offset := Some (tighten act sl (r_price r) prev_close
                                          (r_atr r * 0.1)%float);
                     tp_offset := Some tp |}
    end
  else
    exists c,
      fst (trade self r) =
        Returns {| action := act; comment := c;
                   sl_offset := Some sl; tp_offset := Some tp |}.
Proof.
  unfold trade, activates. destruct (direction self r) as [act c]. simpl fst.
  destruct (trailing_activated self) eqn:Hon; simpl.
  - rewrite Hon.
    destruct (iloc (r_close r) (-2)); simpl;
      [eexists; reflexivity | reflexivity].
  - destruct (match act with
              | buy => float_gtb (r_price r) (r_ema r + 2 * buffer self r)
              | sell => (r_price r <? r_ema r - 2 * buffer self r)%float
              | hold => false
              end); simpl.
    + destruct (iloc (r_close r) (-2)); simpl;
        [eexists; reflexivity | reflexivity].
    + rewrite Hon. eexists. reflexivity.
Qed.

(** X5.  A call changes the instance exactly when it passes the four
    filters with the latch unset and the price more than two buffers beyond
    the EMA in the direction of the trade; the instance it leaves is then
    the same one with the latch set. *)
Theorem latch_set_iff (self : SafeStrategy) (data : Data) :
  snd (decide self data) <> self <->
  exists r,
    filters self data = Next r /\
    trailing_activated self = false /\
    snd (decide self data) = set_trailing_activated self true /\
    ((float_gtb (r_price r) (r_ema r) = true /\
      float_gtb (r_price r)
                (r_ema r + 2 * (r_atr r * buffer_mult self))%float = true) \/
     (float_gtb (r_price r) (r_ema r) = false /\
      (r_price r <? r_ema r - 2 * (r_atr r * buffer_mult self))%float = true)).
Proof.
  unfold decide.
  destruct (filters self data) as [r | d | e] eqn:Hf.
  - rewrite trade_snd. unfold activates, direction, buffer.
    destruct (trailing_activated self) eqn:Hon; simpl.
    + split; [intros H; now elim H | ].
      intros (r' & _ & Hoff & _). discriminate Hoff.
    + destruct (float_gtb (r_price r) (r_ema r)) eqn:Hdir; simpl.
      * destruct (float_gtb (r_price r)
                    (r_ema r + 2 * (r_atr r * buffer_mult self))) eqn:Hfar.
        -- split.
           ++ intros _. exists r. repeat split; auto.
           ++ intros _ H. apply (f_equal trailing_activated) in H.
              simpl in H. congruence.
        -- split; [intros H; now elim H | ].
           intros (r' & Hr' & _ & _ & [[_ H] | [H _]]).
           ++ injection Hr' as <-. congruence.
           ++ injection Hr' as <-. congruence.
      * destruct (r_price r <? r_ema r - 2 * (r_atr r * buffer_mult self))%float
          eqn:Hfar.
        -- split.
           ++ intros _. exists r. repeat split; auto.
           ++ intros _ H. apply (f_equal trailing_activated) in H.
              simpl in H. congruence.
        -- split; [intros H; now elim H | ].
           intros (r' & Hr' & _ & _ & [[H _] | [_ H]]).
           ++ injection Hr' as <-. congruence.
           ++ injection Hr' as <-. congruence.
  - simpl. split; [intros H; now elim H | ].
    intros (r & Hr & _). discriminate Hr.
  - simpl. split; [intros H; now elim H | ].
    intros (r & Hr & _). discriminate Hr.
Qed.

(** X6.  Calling [decide] again on the same snapshot changes nothing more:
    the second call leaves the instance as the first one left it, and gives
    the same signal (the same exception, or the same action and
    offsets). *)
Theorem repeat_call_same_signal (self : SafeStrategy) (data : Data) :
  let first := decide self data in
  let second := decide (snd first) data in
  snd second = snd first /\ same_signal (fst first) (fst second).
Proof.
  cbv zeta. unfold decide.
  destruct (filters self data) as [r | d | e] eqn:Hf.
  - rewrite trade_snd.
    pose proof (trade_fst self r) as H1. cbv zeta in H1.
    destruct (activates self r (fst (direction self r))) eqn:Hact.
    + rewrite filters_ignore_latch, Hf. rewrite trade_snd.
      pose proof (trade_fst (set_trailing_activated self true) r) as H2.
      cbv zeta in H2. rewrite direction_ignores_latch in *.
      assert (Hoff : activates (set_trailing_activated self true) r
                       (fst (direction self r)) = false) by reflexivity.
      rewrite Hoff in *. split; [reflexivity | ].
      rewrite orb_true_r in H1. simpl orb in H2. simpl stop_mult in H2.
      simpl target_mult in H2.
      destruct (iloc (r_close r) (-2)) as [pc | ].
      * destruct H1 as [c1 ->], H2 as [c2 ->]. simpl. auto.
      * rewrite H1, H2. reflexivity.
    + rewrite Hf. rewrite trade_snd, Hact. split; [reflexivity | ].
      destruct (fst (trade self r)) as [d | e]; simpl; auto.
  - simpl. rewrite Hf. simpl. auto.
  - simpl. rewrite Hf. simpl. auto.
Qed.

(** X7.  The latch only bears on the stop offset: on the same snapshot, an
    instance and the same instance with the latch set to any value reject
    alike (same hold, same exception from the filters), and when both
    return a trade they return the same action and target offset. *)
Theorem latch_only_moves_stop (self : SafeStrategy) (b : bool) (data : Data) :
  match fst (decide self data),
        fst (decide (set_trailing_activated self b) data) with
  | Returns d1, Returns d2 =>
    action d1 = action d2 /\
    tp_offset d1 = tp_offset d2 /\
    (action d1 = hold -> d1 = d2)
  | _, _ => True
  end /\
  ((forall r, filters self data <> Next r) ->
   fst (decide (set_trailing_activated self b) data)
     = fst (decide self data)).
Proof.
  unfold decide. rewrite filters_ignore_latch.
  destruct (filters self data) as [r | d | e] eqn:Hf.
  - split; [ | intros H; now elim (H r)].
    + pose proof (trade_fst self r) as H1.
      pose proof (trade_fst (set_trailing_activated self b) r) as H2.
      cbv zeta in H1, H2. rewrite direction_ignores_latch in H2.
      simpl target_mult in H2.
      destruct (fst (trade self r)) as [d1 | e1] eqn:E1; [ | exact I].
      destruct (fst (trade (set_trailing_activated self b) r))
        as [d2 | e2] eqn:E2; [ | exact I].
      assert (A1 : action d1 = fst (direction self r) /\
                   tp_offset d1 = Some (r_atr r * target_mult self)%float).
      { destruct (trailing_activated self || activates self r _)%bool.
        - destruct (iloc (r_close r) (-2)); [ | discriminate H1].
          destruct H1 as [c H1]. injection H1 as ->. auto.
        - destruct H1 as [c H1]. injection H1 as ->. auto. }
      assert (A2 : action d2 = fst (direction self r) /\
                   tp_offset d2 = Some (r_atr r * target_mult self)%float).
      { destruct (trailing_activated (set_trailing_activated self b)
                  || activates (set_trailing_activated self b) r _)%bool.
        - destruct (iloc (r_close r) (-2)); [ | discriminate H2].
          destruct H2 as [c H2]. injection H2 as ->. auto.
        - destruct H2 as [c H2]. injection H2 as ->. auto. }
      destruct A1 as [Ha1 Ht1], A2 as [Ha2 Ht2].
      repeat split; try congruence.
      intros Hhold. exfalso. rewrite Ha1 in Hhold. unfold direction in Hhold.
      destruct (float_gtb (r_price r) (r_ema r)); discriminate Hhold.
  - split; [simpl; auto | reflexivity].
  - split; [exact I | reflexivity].
Qed.

End Latch.

End SafeLatch.

(** ** SafeStrategy: the stop offset and degenerate readings *)

Module SafeStops.

Import Safe.

Section Stops.

Context {indicators : Indicators} {pandas : Rolling}.

(** Tightening takes a minimum with the base stop, whatever the action. *)
Lemma tighten_not_above (a : Action) (sl price prev_close off : float) :
  (sl <? tighten a sl price prev_close off)%float = false.
Proof. destruct a; apply FloatOrder.py_min_not_above. Qed.

(** X8.  The stop offset of a returned buy or sell is never above the base
    stop [ATR * stop_mult]: tightening can only lower it.  When the latch
    is unset as the call ends, the stop offset is the base stop itself. *)
Theorem stop_never_above_base (self self' : SafeStrategy) (data : Data)
    (d : Decision) :
  decide self data = (Returns d, self') ->
  action d <> hold ->
  exists r sl,
    filters self data = Next r /\
    sl_offset d = Some sl /\
    (r_atr r * stop_mult self <? sl)%float = false /\
    (trailing_activated self' = false ->
     sl = (r_atr r * stop_mult self)%float).
Proof.
  unfold decide. intros H Hact.
  destruct (filters self data) as [r | d0 | e] eqn:Hf.
  - apply SafeProps.trade_Returns in H as (_ & _ & Hsl).
    destruct (trailing_activated self').
    + destruct Hsl as (pc & _ & Hsl).
      exists r, (tighten (action d) (r_atr r * stop_mult self)%float
                   (r_price r) pc (r_atr r * 0.1)%float).
      split; [reflexivity | split; [exact Hsl | split]].
      * apply tighten_not_above.
      * discriminate.
    + exists r, (r_atr r * stop_mult self)%float.
      split; [reflexivity | split; [exact Hsl | split]].
      * apply FloatFacts.ltb_irrefl.
      * reflexivity.
  - injection H as <- <-.
    apply SafeProps.filters_Return in Hf as [reason ->]. now elim Hact.
  - discriminate H.
Qed.

(** X9.  An undefined reading switches the buffer zone filter off: when
    the EMA or the ATR read from the snapshot is [nan], a call that reaches
    the filter is never held for being within the buffer zone. *)
Theorem nan_reading_disables_buffer (self : SafeStrategy) (data : Data)
    (r : Readings) :
  before_buffer self data = Next r ->
  is_nan (r_ema r) = true \/ is_nan (r_atr r) = true ->
  fst (decide self data) <> Returns (_hold "within buffer zone").
Proof.
  intros Hreach Hnan Hhold.
  apply (SafeProps.within_buffer_iff self data r Hreach) in Hhold.
  unfold within_buffer, buffer in Hhold.
  destruct Hnan as [Hnan | Hnan].
  - rewrite FloatOrder.ltb_nan_l in Hhold; [discriminate Hhold | ].
    apply FloatOrder.abs_nan. now apply FloatOrder.sub_nan_r.
  - rewrite FloatOrder.ltb_nan_r in Hhold; [discriminate Hhold | ].
    now apply FloatOrder.mul_nan_l.
Qed.

(** Past the buffer zone filter, a returned decision has the action of
    [direction]. *)
Lemma decide_action_past_buffer (self self' : SafeStrategy) (data : Data)
    (r : Readings) (d : Decision) :
  before_buffer self data = Next r ->
  within_buffer self r = false ->
  decide self data = (Returns d, self') ->
  action d = fst (direction self r).
Proof.
  intros Hreach Hbuf. unfold decide, filters, buffer_filter.
  rewrite Hreach. simpl. rewrite Hbuf. simpl.
  intros H. now apply SafeProps.trade_Returns in H as (Ha & _).
Qed.

(** X10.  A buffer that is zero or negative (a flat market with ATR 0, or
    a non-positive multiplier) never holds a call for the buffer zone; and
    if the price then equals the EMA, the decision returned is a sell. *)
Theorem nonpositive_buffer_never_holds (self : SafeStrategy) (data : Data)
    (r : Readings) :
  before_buffer self data = Next r ->
  (r_atr r * buffer_mult self <=? 0)%float = true ->
  fst (decide self data) <> Returns (_hold "within buffer zone") /\
  ((r_ema r =? r_price r)%float = true ->
   forall d self', decide self data = (Returns d, self') -> action d = sell).
Proof.
  intros Hreach Hbuf.
  assert (Hout : within_buffer self r = false).
  { unfold within_buffer, buffer.
    now apply FloatOrder.abs_not_below_nonpositive. }
  split.
  - intros Hhold.
    apply (SafeProps.within_buffer_iff self data r Hreach) in Hhold.
    congruence.
  - intros Htie d self' Hd.
    rewrite (decide_action_past_buffer self self' data r d Hreach Hout Hd).
    unfold direction, float_gtb.
    now rewrite (FloatFacts.eqb_true_ltb_false _ _ Htie).
Qed.

End Stops.

End SafeStops.

(** ** Every strategy: startup check, comments, undefined EMA, exceptions *)

Module FamilyEdges.

Section Edges.

Context {indicators : Indicators} {pandas : Rolling}.

(** *** The startup check *)

Lemma latest_readings_insufficient (name : string) (ema_period atr_period : Z)
    (data : Data) :
  (ohlc_1m data = None \/
   exists df, ohlc_1m data = Some df /\ df_len df < ema_period) ->
  latest_readings name ema_period atr_period data =
    Return_ {| action := hold; comment := name ++ ": insufficient data";
               sl_offset := None; tp_offset := None |}.
Proof.
  unfold latest_readings. SafeProps.unfold_flow.
  intros [-> | (df & -> & Hlen)]; [reflexivity | ].
  apply Z.ltb_lt in Hlen. now rewrite Hlen.
Qed.

Lemma latest_readings_Return_iff (name : string) (ema_period atr_period : Z)
    (data : Data) (d : Decision) :
  latest_readings name ema_period atr_period data = Return_ d ->
  ohlc_1m data = None \/
  exists df, ohlc_1m data = Some df /\ df_len df < ema_period.
Proof.
  unfold latest_readings. SafeProps.unfold_flow. intros H.
  destruct (ohlc_1m data) as [df | ]; [ | now left].
  destruct (df_len df <? ema_period) eqn:Hlen.
  - right. exists df. split; [reflexivity | now apply Z.ltb_lt].
  - repeat SafeProps.break_hyp H.
Qed.

(** Reduces a stateless [decide] whose readings are known. *)
Ltac stateless_after_readings H :=
  unfold run_flow in H; SafeProps.unfold_flow_in H;
  repeat SafeProps.break_hyp H.

Lemma Safe_startup_check (self : Safe.SafeStrategy) (data : Data) :
  fst (Safe.decide self data) = Returns (Safe._hold "insufficient data") <->
  (ohlc_1m data = None \/
   exists df, ohlc_1m data = Some df /\
              df_len df < Z.max (Safe.ema_period self) (Safe.atr_period self)).
Proof.
  split.
  - intros H. apply SafeEdges.decide_hold_reason in H as [H | [H | H]];
      try discriminate H.
    apply SafeProps.read_snapshot_Return in H as [[_ Hins] | [Hout _]];
      [exact Hins | ].
    apply SafeProps.hold_reason_inj in Hout. discriminate Hout.
  - intros H. apply SafeProps.read_snapshot_insufficient in H.
    pose proof (SafeProps.decide_outcome self data) as Hd.
    rewrite H in Hd. now rewrite Hd.
Qed.

(** X11.  Every strategy returns its insufficient-data hold exactly when
    the snapshot is absent or shorter than the strategy's startup length:
    [max(ema_period, atr_period)] for the Safe strategy, [ema_period] alone
    for the other four (their ATR period is not checked). *)
Theorem startup_check (strategy : Strategy) (data : Data) :
  Strategy_decide strategy data = Returns (insufficient_data_hold strategy) <->
  (ohlc_1m data = None \/
   exists df, ohlc_1m data = Some df /\
              df_len df < Strategy_startup_bars strategy).
Proof.
  destruct strategy as [s | s | s | s | s];
    unfold Strategy_decide, Strategy_startup_bars, Strategy_ema_period.
  - apply Safe_startup_check.
  - unfold Moderate.decide. split.
    + intros H.
      destruct (latest_readings Moderate.NAME (Moderate.ema_period s)
                  (Moderate.atr_period s) data)
        as [[[ema atr] price] | d0 | e] eqn:Hr.
      * exfalso. stateless_after_readings H; injection H as H;
          vm_compute in H; discriminate H.
      * now apply latest_readings_Return_iff in Hr.
      * discriminate H.
    + intros H. now rewrite latest_readings_insufficient.
  - unfold Aggressive.decide. split.
    + intros H.
      destruct (latest_readings Aggressive.NAME (Aggressive.ema_period s)
                  (Aggressive.atr_period s) data)
        as [[[ema atr] price] | d0 | e] eqn:Hr.
      * exfalso. stateless_after_readings H; injection H as H;
          vm_compute in H; discriminate H.
      * now apply latest_readings_Return_iff in Hr.
      * discriminate H.
    + intros H. now rewrite latest_readings_insufficient.
  - unfold Momentum.decide. split.
    + intros H.
      destruct (latest_readings Momentum.NAME (Momentum.ema_period s)
                  (Momentum.atr_period s) data)
        as [[[ema atr] price] | d0 | e] eqn:Hr.
      * exfalso. stateless_after_readings H; injection H as H;
          vm_compute in H; discriminate H.
      * now apply latest_readings_Return_iff in Hr.
      * discriminate H.
    + intros H. now rewrite latest_readings_insufficient.
  - unfold MeanReversion.decide. split.
    + intros H.
      destruct (latest_readings MeanReversion.NAME
                  (MeanReversion.ema_period s)
                  (MeanReversion.atr_period s) data)
        as [[[ema atr] price] | d0 | e] eqn:Hr.
      * exfalso. stateless_after_readings H; injection H as H;
          vm_compute in H; discriminate H.
      * now apply latest_readings_Return_iff in Hr.
      * discriminate H.
    + intros H. now rewrite latest_readings_insufficient.
Qed.

(** *** Comments *)

(** X12.  The comment of every decision a strategy returns starts with
    that strategy's [NAME] followed by a colon and a space. *)
Theorem comment_names_strategy (strategy : Strategy) (data : Data)
    (d : Decision) :
  Strategy_decide strategy data = Returns d ->
  startswith (comment d) (Strategy_NAME strategy ++ ": ").
Proof.
  destruct strategy as [s | s | s | s | s];
    unfold Strategy_decide, Strategy_NAME.
  - intros H. destruct (Safe.decide s data) as [o s'] eqn:Hd.
    simpl in H. subst o. unfold Safe.decide in Hd.
    destruct (Safe.filters s data) as [r | d0 | e] eqn:Hf.
    + unfold Safe.trade in Hd.
      destruct (Safe.direction s r) as [act c].
      destruct (Safe.activates s r act); simpl in Hd;
        repeat SafeProps.break_hyp Hd; injection Hd as <- _;
        eexists; reflexivity.
    + injection Hd as <- _.
      apply SafeProps.filters_Return in Hf as [reason ->].
      eexists. reflexivity.
    + discriminate Hd.
  - unfold Moderate.decide, latest_readings, run_flow.
    SafeProps.unfold_flow. intros H.
    repeat SafeProps.break_hyp H; injection H as <-; eexists; reflexivity.
  - unfold Aggressive.decide, latest_readings, run_flow.
    SafeProps.unfold_flow. intros H.
    repeat SafeProps.break_hyp H; injection H as <-; eexists; reflexivity.
  - unfold Momentum.decide, latest_readings, run_flow.
    SafeProps.unfold_flow. intros H.
    repeat SafeProps.break_hyp H; injection H as <-; eexists; reflexivity.
  - unfold MeanReversion.decide, latest_readings, run_flow.
    SafeProps.unfold_flow. intros H.
    repeat SafeProps.break_hyp H; injection H as <-; eexists; reflexivity.
Qed.

(** *** An undefined EMA *)

(** The readings of a stateless strategy, when the EMA call is known. *)
Lemma latest_readings_Next (name : string) (ema_period atr_period : Z)
    (data : Data) (ema atr price : float) :
  latest_readings name ema_period atr_period data = Next (ema, atr, price) ->
  exists df es ats,
    ohlc_1m data = Some df /\
    ema_period <= df_len df /\
    calculate_ema (df_close df) ema_period = inr es /\
    iloc es (-1) = Some ema /\
    calculate_atr df atr_period = inr ats /\
    iloc ats (-1) = Some atr /\
    iloc (df_close df) (-1) = Some price.
Proof.
  unfold latest_readings. SafeProps.unfold_flow. intros H.
  destruct (ohlc_1m data) as [df | ]; [ | discriminate H].
  destruct (df_len df <? ema_period) eqn:Hlen; [discriminate H | ].
  apply Z.ltb_ge in Hlen.
  destruct (calculate_ema (df_close df) ema_period) as [ | es] eqn:Hes;
    [discriminate H | ].
  destruct (iloc es (-1)) as [ema' | ] eqn:Hema; [ | discriminate H].
  destruct (calculate_atr df atr_period) as [ | ats] eqn:Hats;
    [discriminate H | ].
  destruct (iloc ats (-1)) as [atr' | ] eqn:Hatr; [ | discriminate H].
  destruct (iloc (df_close df) (-1)) as [price' | ] eqn:Hprice;
    [ | discriminate H].
  injection H as <- <- <-. exists df, es, ats.
  repeat split; try reflexivity; assumption.
Qed.

(** The last EMA value a stateless strategy reads is the one of the call
    on the frame. *)
Lemma latest_readings_ema (name : string) (ema_period atr_period : Z)
    (data : Data) (df : DataFrame) (es : list float) (e ema atr price : float) :
  ohlc_1m data = Some df ->
  calculate_ema (df_close df) ema_period = inr es ->
  iloc es (-1) = Some e ->
  latest_readings name ema_period atr_period data = Next (ema, atr, price) ->
  ema = e.
Proof.
  intros Hdf Hes He H. apply latest_readings_Next in H.
  destruct H as (df' & es' & ats' & Hdf' & _ & Hes' & He' & _).
  congruence.
Qed.

(** What the readings return early is a hold. *)
Lemma latest_readings_Return_hold (name : string) (ema_period atr_period : Z)
    (data : Data) (d : Decision) :
  latest_readings name ema_period atr_period data = Return_ d ->
  action d = hold.
Proof.
  unfold latest_readings. SafeProps.unfold_flow. intros H.
  repeat SafeProps.break_hyp H; now injection H as <-.
Qed.

(** X13.  When the last value of the EMA series is [nan], no strategy
    buys: the four stateless strategies hold, and the Safe strategy holds
    or sells. *)
Theorem nan_ema_never_buys (strategy : Strategy) (data : Data)
    (df : DataFrame) (es : list float) (ema : float) (d : Decision) :
  ohlc_1m data = Some df ->
  calculate_ema (df_close df) (Strategy_ema_period strategy) = inr es ->
  iloc es (-1) = Some ema ->
  is_nan ema = true ->
  Strategy_decide strategy data = Returns d ->
  match strategy with
  | Safe_ _ => action d = hold \/ action d = sell
  | _ => action d = hold
  end.
Proof.
  intros Hdf Hes Hema Hnan.
  destruct strategy as [s | s | s | s | s];
    unfold Strategy_decide, Strategy_ema_period in *.
  - intros H. destruct (Safe.decide s data) as [o s'] eqn:Hd.
    simpl in H. subst o. unfold Safe.decide in Hd.
    destruct (Safe.filters s data) as [r | d0 | e] eqn:Hf.
    + right. apply SafeProps.trade_Returns in Hd as (Ha & _).
      apply SafeProps.filters_Next in Hf as (Hread & _ & _).
      apply SafeProps.read_snapshot_Next in Hread.
      destruct Hread as (df' & now & Hdf' & _ & _ & _ & _ & _
                         & (es' & Hes' & Hema') & _).
      assert (df' = df) by congruence. subst df'.
      assert (es' = es) by congruence. subst es'.
      assert (Safe.r_ema r = ema) by congruence.
      rewrite Ha. unfold Safe.direction, float_gtb.
      rewrite FloatOrder.ltb_nan_l; [reflexivity | congruence].
    + left. injection Hd as <- _.
      apply SafeProps.filters_Return in Hf as [reason ->]. reflexivity.
    + discriminate Hd.
  - unfold Moderate.decide. intros H.
    destruct (latest_readings Moderate.NAME (Moderate.ema_period s)
                (Moderate.atr_period s) data)
      as [[[ema' atr] price] | d0 | e] eqn:Hr.
    + rewrite (latest_readings_ema _ _ _ _ _ _ _ _ _ _ Hdf Hes Hema Hr) in H.
      simpl in H. unfold float_gtb in H.
      rewrite (FloatOrder.ltb_nan_l ema price Hnan) in H.
      rewrite (FloatOrder.ltb_nan_r price ema Hnan) in H.
      simpl in H. now injection H as <-.
    + simpl in H. injection H as <-.
      now apply latest_readings_Return_hold in Hr.
    + discriminate H.
  - unfold Aggressive.decide. intros H.
    destruct (latest_readings Aggressive.NAME (Aggressive.ema_period s)
                (Aggressive.atr_period s) data)
      as [[[ema' atr] price] | d0 | e] eqn:Hr.
    + rewrite (latest_readings_ema _ _ _ _ _ _ _ _ _ _ Hdf Hes Hema Hr) in H.
      simpl in H. unfold float_gtb in H.
      rewrite (FloatOrder.ltb_nan_l ema price Hnan) in H.
      rewrite (FloatOrder.ltb_nan_r price ema Hnan) in H.
      simpl in H. now injection H as <-.
    + simpl in H. injection H as <-.
      now apply latest_readings_Return_hold in Hr.
    + discriminate H.
  - unfold Momentum.decide. intros H.
    destruct (latest_readings Momentum.NAME (Momentum.ema_period s)
                (Momentum.atr_period s) data)
      as [[[ema' atr] price] | d0 | e] eqn:Hr.
    + rewrite (latest_readings_ema _ _ _ _ _ _ _ _ _ _ Hdf Hes Hema Hr) in H.
      simpl in H. unfold float_gtb in H.
      pose proof (FloatOrder.sub_nan_r price ema Hnan) as Hdiff.
      rewrite (FloatOrder.ltb_nan_r _ _ Hdiff) in H.
      rewrite (FloatOrder.ltb_nan_l _ _ Hdiff) in H.
      simpl in H. now injection H as <-.
    + simpl in H. injection H as <-.
      now apply latest_readings_Return_hold in Hr.
    + discriminate H.
  - unfold MeanReversion.decide. intros H.
    destruct (latest_readings MeanReversion.NAME (MeanReversion.ema_period s)
                (MeanReversion.atr_period s) data)
      as [[[ema' atr] price] | d0 | e] eqn:Hr.
    + rewrite (latest_readings_ema _ _ _ _ _ _ _ _ _ _ Hdf Hes Hema Hr) in H.
      simpl in H. unfold float_gtb in H.
      rewrite (FloatOrder.ltb_nan_l _ price
                 (FloatOrder.add_nan_l ema _ Hnan)) in H.
      rewrite (FloatOrder.ltb_nan_r price _
                 (FloatOrder.sub_nan_l ema _ Hnan)) in H.
      simpl in H. now injection H as <-.
    + simpl in H. injection H as <-.
      now apply latest_readings_Return_hold in Hr.
    + discriminate H.
Qed.

(** *** Freedom from exceptions *)

Lemma df_close_nonempty (df : DataFrame) :
  1 <= df_len df -> df_close df <> [].
Proof.
  unfold df_len, df_close. destruct (df_bars df); simpl; [lia | discriminate].
Qed.

Lemma df_index_nonempty (df : DataFrame) :
  1 <= df_len df -> df_index df <> [].
Proof.
  unfold df_len, df_index. destruct (df_bars df); simpl; [lia | discriminate].
Qed.

(** With non-empty indicator series, the readings of a stateless strategy
    never raise. *)
Lemma latest_readings_no_raise (name : string) (ema_period atr_period : Z)
    (data : Data) (df : DataFrame) (es ats : list float) (e : Exn) :
  ohlc_1m data = Some df ->
  1 <= ema_period ->
  calculate_ema (df_close df) ema_period = inr es -> es <> [] ->
  calculate_atr df atr_period = inr ats -> ats <> [] ->
  latest_readings name ema_period atr_period data <> Raise_ e.
Proof.
  intros Hdf Hper Hes Hes0 Hats Hats0.
  unfold latest_readings. SafeProps.unfold_flow. rewrite Hdf.
  destruct (df_len df <? ema_period) eqn:Hlen; [discriminate | ].
  apply Z.ltb_ge in Hlen. rewrite Hes, Hats.
  destruct (SafeProps.iloc_last_Some es Hes0) as [x ->].
  destruct (SafeProps.iloc_last_Some ats Hats0) as [y ->].
  destruct (SafeProps.iloc_last_Some (df_close df)) as [z ->];
    [apply df_close_nonempty; lia | discriminate].
Qed.

(** With non-empty collaborator series and a startup length of at least
    two bars, the Safe strategy returns. *)
Lemma Safe_returns (self : Safe.SafeStrategy) (data : Data) (df : DataFrame)
    (es ats : list float) :
  ohlc_1m data = Some df ->
  2 <= Z.max (Safe.ema_period self) (Safe.atr_period self) ->
  calculate_ema (df_close df) (Safe.ema_period self) = inr es -> es <> [] ->
  calculate_atr df (Safe.atr_period self) = inr ats -> ats <> [] ->
  (df_has_volume df = true ->
   exists ms, rolling_mean (df_get_volume df) (Safe.atr_period self) = inr ms /\
              ms <> []) ->
  exists d, fst (Safe.decide self data) = Returns d.
Proof.
  intros Hdf Hmax Hes Hes0 Hats Hats0 Hroll.
  pose proof (SafeProps.decide_outcome self data) as Hd.
  destruct (Safe.read_snapshot self data) as [r | d | e] eqn:Hread.
  - destruct (SafeProps.low_volume_cases self data r Hread) as [Hlow | Hlow];
      rewrite Hlow in Hd; [rewrite Hd; simpl; eauto | ].
    destruct (Safe.within_buffer self r); [rewrite Hd; simpl; eauto | ].
    rewrite Hd.
    apply SafeProps.read_snapshot_Next in Hread.
    destruct Hread as (df' & now & Hdf' & Hlen & _ & _ & Hclose & _).
    assert (df' = df) by congruence. subst df'.
    assert (Hpc : exists pc, iloc (Safe.r_close r) (-2) = Some pc).
    { apply SafeProps.iloc_prev_Some. rewrite Hclose. unfold df_close.
      rewrite length_map. unfold df_len in Hlen. lia. }
    destruct Hpc as [pc Hpc].
    pose proof (SafeLatch.trade_fst self r) as Ht. cbv zeta in Ht.
    rewrite Hpc in Ht.
    destruct (Safe.trailing_activated self || Safe.activates self r _)%bool;
      destruct Ht as [c ->]; eauto.
  - rewrite Hd. simpl. eauto.
  - exfalso. revert Hread. unfold Safe.read_snapshot. SafeProps.unfold_flow.
    rewrite Hdf.
    destruct (df_len df <? Z.max (Safe.ema_period self) (Safe.atr_period self))
      eqn:Hlen; [discriminate | ].
    apply Z.ltb_ge in Hlen.
    destruct (SafeProps.iloc_last_Some (df_index df)) as [now ->];
      [apply df_index_nonempty; lia | ].
    destruct (Safe.in_session self now); simpl; [ | discriminate].
    rewrite Hes, Hats.
    destruct (SafeProps.iloc_last_Some es Hes0) as [x ->].
    destruct (SafeProps.iloc_last_Some ats Hats0) as [y ->].
    destruct (SafeProps.iloc_last_Some (df_close df)) as [z ->];
      [apply df_close_nonempty; lia | ].
    destruct (series_empty (df_get_volume df)) eqn:Hvol; [discriminate | ].
    assert (Hhas : df_has_volume df = true).
    { unfold df_get_volume in Hvol.
      destruct (df_has_volume df); [reflexivity | discriminate Hvol]. }
    destruct (Hroll Hhas) as (ms & -> & Hms).
    destruct (SafeProps.iloc_last_Some ms Hms) as [m ->]. discriminate.
Qed.

(** X14.  No strategy raises when its collaborators keep their side: on a
    snapshot that is present, with a startup length of at least one bar
    (two for the Safe strategy, which reads the close before the last) and
    EMA, ATR and rolling-mean series that are returned and non-empty,
    [decide] returns a decision. *)
Theorem decide_returns (strategy : Strategy) (data : Data) (df : DataFrame)
    (es ats : list float) :
  ohlc_1m data = Some df ->
  match strategy with Safe_ _ => 2 | _ => 1 end
    <= Strategy_startup_bars strategy ->
  calculate_ema (df_close df) (Strategy_ema_period strategy) = inr es ->
  es <> [] ->
  calculate_atr df (Strategy_atr_period strategy) = inr ats ->
  ats <> [] ->
  (df_has_volume df = true ->
   exists ms,
     rolling_mean (df_get_volume df) (Strategy_atr_period strategy) = inr ms /\
     ms <> []) ->
  exists d, Strategy_decide strategy data = Returns d.
Proof.
  intros Hdf Hbars Hes Hes0 Hats Hats0 Hroll.
  destruct strategy as [s | s | s | s | s];
    unfold Strategy_decide, Strategy_startup_bars, Strategy_ema_period,
      Strategy_atr_period in *.
  - exact (Safe_returns s data df es ats Hdf Hbars Hes Hes0 Hats Hats0 Hroll).
  - unfold Moderate.decide.
    pose proof (fun e => latest_readings_no_raise Moderate.NAME _ _ data df
                           es ats e Hdf Hbars Hes Hes0 Hats Hats0) as Hno.
    destruct (latest_readings Moderate.NAME _ _ data)
      as [[[ema atr] price] | d0 | e]; [ | simpl; eauto | now elim (Hno e)].
    simpl. destruct (float_gtb price ema); simpl; eauto.
    destruct (price <? ema)%float; simpl; eauto.
  - unfold Aggressive.decide.
    pose proof (fun e => latest_readings_no_raise Aggressive.NAME _ _ data df
                           es ats e Hdf Hbars Hes Hes0 Hats Hats0) as Hno.
    destruct (latest_readings Aggressive.NAME _ _ data)
      as [[[ema atr] price] | d0 | e]; [ | simpl; eauto | now elim (Hno e)].
    simpl. destruct (float_gtb price ema); simpl; eauto.
    destruct (price <? ema)%float; simpl; eauto.
  - unfold Momentum.decide.
    pose proof (fun e => latest_readings_no_raise Momentum.NAME _ _ data df
                           es ats e Hdf Hbars Hes Hes0 Hats Hats0) as Hno.
    destruct (latest_readings Momentum.NAME _ _ data)
      as [[[ema atr] price] | d0 | e]; [ | simpl; eauto | now elim (Hno e)].
    simpl. destruct (float_gtb _ _); simpl; eauto.
    destruct (_ <? _)%float; simpl; eauto.
  - unfold MeanReversion.decide.
    pose proof (fun e => latest_readings_no_raise MeanReversion.NAME _ _ data
                           df es ats e Hdf Hbars Hes Hes0 Hats Hats0) as Hno.
    destruct (latest_readings MeanReversion.NAME _ _ data)
      as [[[ema atr] price] | d0 | e]; [ | simpl; eauto | now elim (Hno e)].
    simpl. destruct (float_gtb _ _); simpl; eauto.
    destruct (_ <? _)%float; simpl; eauto.
Qed.

End Edges.

End FamilyEdges.

(** ** SafeStrategy: direction, announcement and the instance over time *)

Module SafeSignals.

Import Safe.

Lemma last_char_append (pre suf : string) :
  suf <> "" -> last_char (pre ++ suf) = last_char suf.
Proof.
  intros Hsuf. induction pre as [ | c pre IH]; [reflexivity | ].
  simpl. rewrite IH. destruct (pre ++ suf) eqn:E; [ | reflexivity].
  destruct pre; simpl in E; [now elim Hsuf | discriminate E].
Qed.

Section Signals.

Context {indicators : Indicators} {pandas : Rolling}.

(** X15.  A returned trade follows the trend: it is a buy exactly when the
    price is above the EMA and a sell otherwise, and in either case the
    price is not within the buffer zone. *)
Theorem trade_follows_trend (self self' : SafeStrategy) (data : Data)
    (d : Decision) :
  decide self data = (Returns d, self') ->
  action d <> hold ->
  exists r,
    filters self data = Next r /\
    (action d = buy <-> (r_ema r <? r_price r)%float = true) /\
    (action d = sell <-> (r_ema r <? r_price r)%float = false) /\
    (abs (r_price r - r_ema r) <? r_atr r * buffer_mult self)%float = false.
Proof.
  unfold decide. intros H Hact.
  destruct (filters self data) as [r | d0 | e] eqn:Hf.
  - exists r. split; [reflexivity | ].
    apply SafeProps.trade_Returns in H as (Ha & _).
    apply SafeProps.filters_Next in Hf as (_ & _ & Hbuf).
    unfold within_buffer, buffer in Hbuf. rewrite Ha.
    unfold direction, float_gtb.
    destruct (r_ema r <? r_price r)%float; simpl;
      repeat split; try assumption; try reflexivity; discriminate.
  - injection H as <- <-.
    apply SafeProps.filters_Return in Hf as [reason ->]. now elim Hact.
  - discriminate H.
Qed.

(** The comment of a returned trade: the one of [direction], with the
    announcement appended when the call arms the latch. *)
Lemma trade_comment (self self' : SafeStrategy) (r : Readings) (d : Decision) :
  trade self r = (Returns d, self') ->
  comment d =
    NAME ++ ": " ++
    (snd (direction self r) ++
     (if activates self r (fst (direction self r))
      then "; trailing stop activated" else "")).
Proof.
  unfold trade. destruct (direction self r) as [act c]. cbn [fst snd].
  destruct (activates self r act).
  - cbv beta iota. cbn [trailing_activated set_trailing_activated].
    destruct (iloc (r_close r) (-2)); [ | discriminate].
    intros H. injection H as <- _. reflexivity.
  - rewrite SafeProps.append_nil_r. cbv beta iota.
    destruct (trailing_activated self).
    + destruct (iloc (r_close r) (-2)); [ | discriminate].
      intros H. injection H as <- _. reflexivity.
    + intros H. injection H as <- _. reflexivity.
Qed.

(** The comment of [direction] ends in "buffer". *)
Lemma direction_last_char (self : SafeStrategy) (r : Readings) :
  last_char (NAME ++ ": " ++ snd (direction self r)) = Some "r"%char.
Proof.
  unfold direction. destruct (float_gtb (r_price r) (r_ema r)); cbn [snd];
    rewrite <- !SafeProps.append_assoc;
    now rewrite last_char_append by discriminate.
Qed.

(** X16.  A returned trade announces the arming of the latch: its comment
    ends with "; trailing stop activated" exactly when the call changed the
    instance. *)
Theorem activation_is_announced (self self' : SafeStrategy) (data : Data)
    (d : Decision) :
  decide self data = (Returns d, self') ->
  action d <> hold ->
  (self' <> self <-> endswith (comment d) "; trailing stop activated").
Proof.
  unfold decide. intros H Hact.
  destruct (filters self data) as [r | d0 | e] eqn:Hf.
  - pose proof (trade_comment self self' r d H) as Hc.
    pose proof (SafeLatch.trade_snd self r) as Hs. rewrite H in Hs.
    cbn [snd] in Hs.
    destruct (activates self r (fst (direction self r))) eqn:Harm.
    + split.
      * intros _. rewrite Hc. exists (NAME ++ ": " ++ snd (direction self r)).
        now rewrite <- !SafeProps.append_assoc.
      * intros _ E. rewrite Hs in E.
        apply (f_equal trailing_activated) in E. simpl in E.
        unfold activates in Harm. rewrite <- E in Harm. discriminate Harm.
    + split; [intros Hneq; now elim Hneq | ].
      intros [pre Hpre]. exfalso. rewrite Hc in Hpre.
      rewrite SafeProps.append_nil_r in Hpre.
      apply (f_equal last_char) in Hpre.
      rewrite direction_last_char in Hpre.
      rewrite last_char_append in Hpre by discriminate.
      discriminate Hpre.
  - injection H as <- <-.
    apply SafeProps.filters_Return in Hf as [reason ->]. now elim Hact.
  - discriminate H.
Qed.

(** A call on an instance whose latch is set leaves it as it is. *)
Lemma armed_decide_fixed (self : SafeStrategy) (data : Data) :
  trailing_activated self = true -> snd (decide self data) = self.
Proof.
  intros Hon. unfold decide.
  destruct (filters self data); [ | reflexivity | reflexivity].
  rewrite SafeLatch.trade_snd. unfold activates. rewrite Hon. reflexivity.
Qed.

Lemma armed_after_calls_fixed (calls : list Data) (self : SafeStrategy) :
  trailing_activated self = true -> after_calls self calls = self.
Proof.
  intros Hon. induction calls as [ | data calls IH]; [reflexivity | ].
  simpl. rewrite armed_decide_fixed by exact Hon. exact IH.
Qed.

(** X17.  Over any sequence of calls the instance takes at most two values:
    it stays as it was, or it is the same instance with the latch set, and
    then stays so.  The configuration is never modified, and an instance
    whose latch is set is never modified at all. *)
Theorem instance_over_calls (self : SafeStrategy) (calls : list Data) :
  (after_calls self calls = self \/
   after_calls self calls = set_trailing_activated self true) /\
  (trailing_activated self = true -> after_calls self calls = self).
Proof.
  split; [ | apply armed_after_calls_fixed].
  revert self. induction calls as [ | data calls IH]; intros self.
  - now left.
  - change (after_calls self (data :: calls))
      with (after_calls (snd (decide self data)) calls).
    destruct (decide self data) as [o s'] eqn:Hd. cbn [snd].
    unfold decide in Hd.
    destruct (filters self data) as [r | d | e].
    + apply SafeProps.trade_state in Hd as [-> | [_ ->]]; [apply IH | ].
      right. now apply armed_after_calls_fixed.
    + injection Hd as _ <-. apply IH.
    + injection Hd as _ <-. apply IH.
Qed.

End Signals.

End SafeSignals.

(** ** More runs on the sample snapshots *)

Module MoreRuns.

Import Safe.

Lemma in_session_bounds_witness :
  time_leb (session_start safe_3_1) (session_end safe_3_1) = true /\
  in_session safe_3_1 eight_oclock = true /\
  time_leb (session_start safe_overnight) (session_end safe_overnight)
    = false /\
  in_session safe_overnight eight_oclock = false.
Proof.
  split; [reflexivity | split; [ | split; [reflexivity | ]]].
  - apply (proj1 (SafeEdges.in_session_bounds safe_3_1 eight_oclock)).
    + reflexivity.
    + left. reflexivity.
  - apply (proj2 (SafeEdges.in_session_bounds safe_overnight eight_oclock)).
    reflexivity.
Defined.

Lemma overnight_window_never_trades_witness :
  decide_ref safe_overnight rising_data
    = (Returns (_hold "outside trading session"), safe_overnight) /\
  safe_overnight = safe_overnight /\
  forall d, Returns (_hold "outside trading session") = Returns d ->
            action d = hold.
Proof.
  split; [vm_compute; reflexivity | ].
  apply (@SafeEdges.overnight_window_never_trades ref_indicators ref_rolling
           safe_overnight safe_overnight rising_data
           (Returns (_hold "outside trading session"))).
  - reflexivity.
  - vm_compute. reflexivity.
Defined.

Lemma empty_snapshot_witness :
  decide_ref safe_3_1 empty_data
    = (Returns (_hold "insufficient data"), safe_3_1) /\
  decide_ref safe_0_0 empty_data = (Raises IndexError, safe_0_0).
Proof.
  split.
  - apply (proj1 (@SafeEdges.empty_snapshot ref_indicators ref_rolling
                    safe_3_1 empty_data empty_frame eq_refl eq_refl)).
    reflexivity.
  - apply (proj2 (@SafeEdges.empty_snapshot ref_indicators ref_rolling
                    safe_0_0 empty_data empty_frame eq_refl eq_refl)).
    vm_compute. discriminate.
Defined.

Lemma stop_never_above_base_witness :
  exists r sl,
    @filters ref_indicators ref_rolling safe_3_1 rising_data = Next r /\
    sl_offset rising_decision = Some sl /\
    (r_atr r * stop_mult safe_3_1 <? sl)%float = false /\
    (trailing_activated (set_trailing_activated safe_3_1 true) = false ->
     sl = (r_atr r * stop_mult safe_3_1)%float).
Proof.
  apply (@SafeStops.stop_never_above_base ref_indicators ref_rolling
           safe_3_1 (set_trailing_activated safe_3_1 true) rising_data
           rising_decision).
  - vm_compute. reflexivity.
  - discriminate.
Defined.

Lemma nan_reading_disables_buffer_witness :
  @before_buffer nan_ema_indicators ref_rolling safe_3_1 rising_data
    = Next nan_ema_readings /\
  is_nan (r_ema nan_ema_readings) = true /\
  fst (@decide nan_ema_indicators ref_rolling safe_3_1 rising_data)
    <> Returns (_hold "within buffer zone").
Proof.
  split; [vm_compute; reflexivity | split; [reflexivity | ]].
  apply (@SafeStops.nan_reading_disables_buffer nan_ema_indicators
           ref_rolling safe_3_1 rising_data nan_ema_readings).
  - vm_compute. reflexivity.
  - left. reflexivity.
Defined.

Lemma nonpositive_buffer_never_holds_witness :
  @before_buffer ref_indicators ref_rolling safe_3_1 flat_data
    = Next flat_readings /\
  fst (decide_ref safe_3_1 flat_data) <> Returns (_hold "within buffer zone") /\
  ((r_ema flat_readings =? r_price flat_readings)%float = true ->
   forall d self', decide_ref safe_3_1 flat_data = (Returns d, self') ->
                   action d = sell).
Proof.
  split; [vm_compute; reflexivity | ].
  apply (@SafeStops.nonpositive_buffer_never_holds ref_indicators ref_rolling
           safe_3_1 flat_data flat_readings).
  - vm_compute. reflexivity.
  - vm_compute. reflexivity.
Defined.

Lemma comment_names_strategy_witness :
  exists d,
    @Strategy_decide ref_indicators ref_rolling (Moderate_ moderate_3_1)
      rising_data = Returns d /\
    startswith (comment d) (Moderate.NAME ++ ": ").
Proof.
  eexists. split; [vm_compute; reflexivity | ].
  apply (@FamilyEdges.comment_names_strategy ref_indicators ref_rolling
           (Moderate_ moderate_3_1) rising_data).
  vm_compute. reflexivity.
Defined.

Lemma nan_ema_never_buys_witness :
  exists d,
    @Strategy_decide nan_ema_indicators ref_rolling (Moderate_ moderate_3_1)
      rising_data = Returns d /\
    action d = hold.
Proof.
  eexists. split; [vm_compute; reflexivity | ].
  apply (@FamilyEdges.nan_ema_never_buys nan_ema_indicators ref_rolling
           (Moderate_ moderate_3_1) rising_data rising_frame
           [nan; nan; nan]%float nan).
  - reflexivity.
  - vm_compute. reflexivity.
  - vm_compute. reflexivity.
  - reflexivity.
  - vm_compute. reflexivity.
Defined.

Lemma decide_returns_witness :
  exists d,
    @Strategy_decide ref_indicators ref_rolling (Safe_ safe_3_1) rising_data
      = Returns d.
Proof.
  apply (@FamilyEdges.decide_returns ref_indicators ref_rolling
           (Safe_ safe_3_1) rising_data rising_frame
           [98; 99; 100]%float [1; 2.5; 2]%float).
  - reflexivity.
  - vm_compute. discriminate.
  - vm_compute. reflexivity.
  - discriminate.
  - vm_compute. reflexivity.
  - discriminate.
  - discriminate.
Defined.

Lemma trade_follows_trend_witness :
  exists r,
    @filters ref_indicators ref_rolling safe_3_1 rising_data = Next r /\
    (action rising_decision = buy <-> (r_ema r <? r_price r)%float = true) /\
    (action rising_decision = sell <->
     (r_ema r <? r_price r)%float = false) /\
    (abs (r_price r - r_ema r) <? r_atr r * buffer_mult safe_3_1)%float
      = false.
Proof.
  apply (@SafeSignals.trade_follows_trend ref_indicators ref_rolling safe_3_1
           (set_trailing_activated safe_3_1 true) rising_data rising_decision).
  - vm_compute. reflexivity.
  - discriminate.
Defined.

Lemma activation_is_announced_witness :
  set_trailing_activated safe_3_1 true <> safe_3_1 <->
  endswith (comment rising_decision) "; trailing stop activated".
Proof.
  apply (@SafeSignals.activation_is_announced ref_indicators ref_rolling
           safe_3_1 (set_trailing_activated safe_3_1 true) rising_data
           rising_decision).
  - vm_compute. reflexivity.
  - discriminate.
Defined.

Lemma instance_over_calls_witness :
  @after_calls ref_indicators ref_rolling
    (set_trailing_activated safe_3_1 true)
    [rising_data; falling_data; no_data; short_data]
  = set_trailing_activated safe_3_1 true.
Proof.
  apply (proj2 (@SafeSignals.instance_over_calls ref_indicators ref_rolling
                  (set_trailing_activated safe_3_1 true)
                  [rising_data; falling_data; no_data; short_data])).
  reflexivity.
Defined.

End MoreRuns.
